(** * Cells runtime: cell and environment

    A shallow embedding of [cells/cell.go] and of the environment source
    (package [cells] of the Tideland Go library), and the properties of
    the natural-language specification that concern them.

    Go pointers and interface references are addresses into typed heaps
    of a [world]; a method is a computation of the monad [M], which
    threads the world and may panic.  The collaborators the two files
    call but do not define (packages [errors], [loop], [monitoring],
    [logger], [identifier], the registry, events and payloads) are
    modelled from the specification where it describes them and are
    parameters (class [Collaborators]) where it leaves them open.

    Concurrency is explicit.  The case a [select] takes among those
    that can proceed is an argument, and so is what the other
    goroutines do while a call is blocked or between two of its
    steps: a list of stretches, each a computation on the world.  Time
    is the clock of the world; it moves when a stretch moves it. *)

From stdpp Require Import base gmap list strings pretty.
From Stdlib Require Import ZArith Lia.

Local Open Scope Z_scope.
Local Set Warnings "-register-all".

(** ** Values *)

(** An address of a heap object: the target of a Go pointer, channel or
    interface reference. *)
Abbreviation loc := nat.

(** Modelled from the spec: the error codes of package [cells] are not
    part of the sources; they are the kinds of section 7. *)
Inductive errcode :=
| ErrCellInit
| ErrDuplicateCell
| ErrCellNotFound
| ErrInvalidEvent
| ErrQueueFull
| ErrQueueStopped
| ErrTimeout
| ErrEventRecovering
| ErrRecoveredTooOften
| ErrStopped.

(** Modelled from the spec: package [errors] is not part of the
    sources.  [errors.New(code, messages, args...)] makes an error of a
    kind, [errors.Annotate(err, code, messages, args...)] an error of a
    kind that wraps [err]; [ForeignError] stands for an error value
    made outside the runtime (by a behavior or a queue).  [value] is
    Go's [interface{}], as far as the runtime meets it. *)
Inductive value :=
| VNil
| VBool (b : bool)
| VInt (n : Z)
| VString (s : string)
| VError (e : error)
| VChan (ch : loc)
| VList (vs : list value)
| VPayload (p : list (string * value))
with error :=
| errors_New (code : errcode) (args : list value)
| errors_Annotate (err : error) (code : errcode) (args : list value)
| ForeignError (msg : string).

(** The kind of an error is its outermost code. *)
Definition error_code (e : error) : option errcode :=
  match e with
  | errors_New c _ => Some c
  | errors_Annotate _ c _ => Some c
  | ForeignError _ => None
  end.

(** The error an annotation wraps. *)
Definition error_cause (e : error) : option error :=
  match e with
  | errors_Annotate inner _ _ => Some inner
  | _ => None
  end.

(** ** Events and payloads *)

(** Modelled from the spec: [Payload], [PayloadValues], [NewPayload] and
    [Apply] are not part of the sources.  A payload is an ordered
    mapping from string keys to opaque values. *)
Definition Payload := list (string * value).
Definition PayloadValues := list (string * value).

(** Modelled from the spec: the default key a bare value is stored
    under, and the reserved key of the response channel of a request. *)
Definition DefaultPayload : string := "default".
Definition ResponseChanPayload : string := "responseChan".

Fixpoint payload_get (k : string) (p : Payload) : option value :=
  match p with
  | [] => None
  | (k', v) :: rest => if String.eqb k k' then Some v else payload_get k rest
  end.

Fixpoint payload_set (k : string) (v : value) (p : Payload) : Payload :=
  match p with
  | [] => [(k, v)]
  | (k', v') :: rest =>
      if String.eqb k k' then (k', v) :: rest
      else (k', v') :: payload_set k v rest
  end.

(** Modelled from the spec: a seed that is not already a payload is
    wrapped in a single-entry payload under the default key. *)
Definition NewPayload (seed : value) : Payload :=
  match seed with
  | VPayload p => p
  | v => [(DefaultPayload, v)]
  end.

(** Modelled from the spec: [Apply] returns a new payload whose keys are
    the union of the receiver's keys and the override keys, the override
    values winning; the receiver is unchanged. *)
Definition Apply (p : Payload) (values : PayloadValues) : Payload :=
  fold_left (fun q kv => payload_set (fst kv) (snd kv) q) values p.

(** Modelled from the spec: package [scene] is not part of the sources;
    a scene is opaque to the runtime, nil or a reference. *)
Definition Scene := option loc.

(** Modelled from the spec: [Event] is not part of the sources; it is
    the triple of topic, payload and scene. *)
Record Event := mkEvent {
  ev_topic : string;
  ev_payload : Payload;
  ev_scene : Scene;
}.

(** Modelled from the spec: [NewEvent] is not part of the sources; it
    fails with [InvalidEvent] if the topic is empty and wraps a payload
    that is not already one. *)
Definition NewEvent (topic : string) (payload : value) (scn : Scene)
  : Event + error :=
  if String.eqb topic "" then inr (errors_New ErrInvalidEvent [])
  else inl (mkEvent topic (NewPayload payload) scn).

(** ** Recoverings (package [loop]) *)

(** Times are nanoseconds, as Go's [time.Duration]. *)
Definition time_Second : Z := 1000000000.
Definition time_Minute : Z := 60 * time_Second.

(** Modelled from the spec: [loop.Recovering] is not part of the
    sources; a recovering is a panic reason with its timestamp. *)
Record Recovering := mkRecovering {
  Time : Z;
  Reason : value;
}.

(** A history of recoverings, oldest first. *)
Definition Recoverings := list Recovering.

(** Modelled from the spec: the methods of [loop.Recoverings] are not
    part of the sources.  [Last] is the most recent recovering; it is a
    pointer in Go, nil for an empty history. *)
Definition Last (rs : Recoverings) : option Recovering := last rs.

(** Modelled from the spec: the recoverings "within the last [dur]"
    are those no older than [dur] when the most recent one happened,
    which is when the history is checked. *)
Definition within_last (dur : Z) (rs : Recoverings) : Recoverings :=
  match Last rs with
  | None => []
  | Some l => filter (fun r => Time l - dur <= Time r) rs
  end.

(** Modelled from the spec: "the recovering history records [num] or
    more events within the last [dur]". *)
Definition Frequency (num : nat) (dur : Z) (rs : Recoverings) : bool :=
  bool_decide (num <= length (within_last dur rs))%nat.

(** Modelled from the spec: "the history trimmed to its most recent
    [l] entries". *)
Definition Trim (l : nat) (rs : Recoverings) : Recoverings :=
  drop (length rs - l) rs.

(** ** The world *)

(** [cell] of [cell.go]; the fields carry the receiver's name [c].
    [c_env], [c_behavior], [c_queue], [c_subscriberc] and [c_loop] are
    references ([c_loop] is nil until [newCell] assigns it);
    [c_subscribers] is the slice of cell pointers. *)
Record cell := mkCell {
  c_env : loc;
  c_id : string;
  c_behavior : loc;
  c_subscribers : list loc;
  c_queue : loc;
  c_subscriberc : loc;
  c_loop : option loc;
  c_measuringID : string;
}.

(** Modelled from the spec: the registry is not part of the sources; it
    maps ids to cells and keeps, for each emitter id, its subscriber
    ids. *)
Record registry := mkRegistry {
  r_cells : gmap string loc;
  r_subscriptions : gmap string (list string);
}.

Definition newRegistry : registry := mkRegistry ∅ ∅.

(** Modelled from the spec: [Monitoring] and [NewNullMonitoring] are
    not part of the sources; the sink of an environment is the null
    implementation or a custom one. *)
Inductive Monitoring :=
| NullMonitoring
| CustomMonitoring (ref : loc).

Definition NewNullMonitoring : Monitoring := NullMonitoring.

(** [environment] of the environment source.  The mutex is left out: a
    method runs as one step.  The registry pointer has one owner and is
    kept in place.  The field [queueFactory] that [newCell] calls is not
    declared by the struct of this source; it is a collaborator. *)
Record environment := mkEnvironment {
  env_id : string;
  env_cells : registry;
  env_monitor : Monitoring;
}.

(** Modelled from the spec: the supervised loop of package [loop] is not
    part of the sources.  A loop runs until it returns or is stopped; it
    carries a stop signal, a terminal error and the history of its
    recoverings. *)
Inductive loop_status := Running | Stopping | Stopped.

Record loop_state := mkLoop {
  l_status : loop_status;
  l_err : option error;
  l_recoverings : Recoverings;
}.

(** A buffered Go channel of [interface{}]. *)
Record chan := mkChan {
  ch_cap : nat;
  ch_buf : list value;
}.

(** An unbuffered Go channel of subscriber lists: the values of the
    senders that are blocked in a send, oldest first, and the number of
    values that have been received from it. *)
Record schan := mkSchan {
  sc_offers : list (list loc);
  sc_received : nat;
}.

(** The one finalizer the package installs: the method [Stop] of the environment. *)
Inductive finalizer := FinalizerStop.

Inductive loglevel := LInfo | LError.

Record logentry := mkLog {
  log_level : loglevel;
  log_format : string;
  log_args : list value;
}.

(** Modelled from the spec: no implementation of [EventQueue] is part
    of the sources.  The mailbox of the queue contract is a bounded
    FIFO that can be stopped. *)
Record mailbox := mkMailbox {
  mb_events : loc;
  mb_capacity : nat;
  mb_stopped : bool;
}.

Record world := mkWorld {
  w_cells : gmap loc cell;
  w_envs : gmap loc environment;
  w_loops : gmap loc loop_state;
  (* channels of interface{} values: the response channels *)
  w_rchans : gmap loc chan;
  (* unbuffered channels of subscriber lists *)
  w_schans : gmap loc schan;
  (* channels of events: what a queue hands to its one reader *)
  w_echans : gmap loc (list Event);
  w_mailboxes : gmap loc mailbox;
  (* memory private to behaviors *)
  w_private : gmap loc value;
  w_finalizers : gmap loc finalizer;
  (* package monitoring: counters and completed measurings *)
  w_vars : gmap string Z;
  w_measurings : list (string * Z);
  w_log : list logentry;
  w_now : Z;
  w_entropy : nat;
}.

Definition set_cells (f : gmap loc cell -> gmap loc cell) (w : world) : world :=
  mkWorld (f (w_cells w)) (w_envs w) (w_loops w) (w_rchans w) (w_schans w)
    (w_echans w) (w_mailboxes w) (w_private w) (w_finalizers w) (w_vars w)
    (w_measurings w) (w_log w) (w_now w) (w_entropy w).

Definition set_envs (f : gmap loc environment -> gmap loc environment) (w : world) : world :=
  mkWorld (w_cells w) (f (w_envs w)) (w_loops w) (w_rchans w) (w_schans w)
    (w_echans w) (w_mailboxes w) (w_private w) (w_finalizers w) (w_vars w)
    (w_measurings w) (w_log w) (w_now w) (w_entropy w).

Definition set_loops (f : gmap loc loop_state -> gmap loc loop_state) (w : world) : world :=
  mkWorld (w_cells w) (w_envs w) (f (w_loops w)) (w_rchans w) (w_schans w)
    (w_echans w) (w_mailboxes w) (w_private w) (w_finalizers w) (w_vars w)
    (w_measurings w) (w_log w) (w_now w) (w_entropy w).

Definition set_rchans (f : gmap loc chan -> gmap loc chan) (w : world) : world :=
  mkWorld (w_cells w) (w_envs w) (w_loops w) (f (w_rchans w)) (w_schans w)
    (w_echans w) (w_mailboxes w) (w_private w) (w_finalizers w) (w_vars w)
    (w_measurings w) (w_log w) (w_now w) (w_entropy w).

Definition set_schans (f : gmap loc schan -> gmap loc schan) (w : world) : world :=
  mkWorld (w_cells w) (w_envs w) (w_loops w) (w_rchans w) (f (w_schans w))
    (w_echans w) (w_mailboxes w) (w_private w) (w_finalizers w) (w_vars w)
    (w_measurings w) (w_log w) (w_now w) (w_entropy w).

Definition set_echans (f : gmap loc (list Event) -> gmap loc (list Event))
  (w : world) : world :=
  mkWorld (w_cells w) (w_envs w) (w_loops w) (w_rchans w) (w_schans w)
    (f (w_echans w)) (w_mailboxes w) (w_private w) (w_finalizers w) (w_vars w)
    (w_measurings w) (w_log w) (w_now w) (w_entropy w).

Definition set_mailboxes (f : gmap loc mailbox -> gmap loc mailbox) (w : world) : world :=
  mkWorld (w_cells w) (w_envs w) (w_loops w) (w_rchans w) (w_schans w)
    (w_echans w) (f (w_mailboxes w)) (w_private w) (w_finalizers w) (w_vars w)
    (w_measurings w) (w_log w) (w_now w) (w_entropy w).

Definition set_private (f : gmap loc value -> gmap loc value) (w : world) : world :=
  mkWorld (w_cells w) (w_envs w) (w_loops w) (w_rchans w) (w_schans w)
    (w_echans w) (w_mailboxes w) (f (w_private w)) (w_finalizers w) (w_vars w)
    (w_measurings w) (w_log w) (w_now w) (w_entropy w).

Definition set_finalizers (f : gmap loc finalizer -> gmap loc finalizer) (w : world) : world :=
  mkWorld (w_cells w) (w_envs w) (w_loops w) (w_rchans w) (w_schans w)
    (w_echans w) (w_mailboxes w) (w_private w) (f (w_finalizers w)) (w_vars w)
    (w_measurings w) (w_log w) (w_now w) (w_entropy w).

Definition set_vars (f : gmap string Z -> gmap string Z) (w : world) : world :=
  mkWorld (w_cells w) (w_envs w) (w_loops w) (w_rchans w) (w_schans w)
    (w_echans w) (w_mailboxes w) (w_private w) (w_finalizers w) (f (w_vars w))
    (w_measurings w) (w_log w) (w_now w) (w_entropy w).

Definition set_measurings (f : list (string * Z) -> list (string * Z)) (w : world) : world :=
  mkWorld (w_cells w) (w_envs w) (w_loops w) (w_rchans w) (w_schans w)
    (w_echans w) (w_mailboxes w) (w_private w) (w_finalizers w) (w_vars w)
    (f (w_measurings w)) (w_log w) (w_now w) (w_entropy w).

Definition set_log (f : list logentry -> list logentry) (w : world) : world :=
  mkWorld (w_cells w) (w_envs w) (w_loops w) (w_rchans w) (w_schans w)
    (w_echans w) (w_mailboxes w) (w_private w) (w_finalizers w) (w_vars w)
    (w_measurings w) (f (w_log w)) (w_now w) (w_entropy w).

Definition set_now (f : Z -> Z) (w : world) : world :=
  mkWorld (w_cells w) (w_envs w) (w_loops w) (w_rchans w) (w_schans w)
    (w_echans w) (w_mailboxes w) (w_private w) (w_finalizers w) (w_vars w)
    (w_measurings w) (w_log w) (f (w_now w)) (w_entropy w).

Definition set_entropy (f : nat -> nat) (w : world) : world :=
  mkWorld (w_cells w) (w_envs w) (w_loops w) (w_rchans w) (w_schans w)
    (w_echans w) (w_mailboxes w) (w_private w) (w_finalizers w) (w_vars w)
    (w_measurings w) (w_log w) (w_now w) (f (w_entropy w)).

Definition empty_world : world :=
  mkWorld ∅ ∅ ∅ ∅ ∅ ∅ ∅ ∅ ∅ ∅ [] [] 0 0%nat.

(** ** The monad of methods *)

(** A call returns a result and a world, or panics with a reason. *)
Inductive outcome (A : Type) :=
| Done (a : A) (w : world)
| Panicked (reason : value) (w : world).
Arguments Done {A} a w.
Arguments Panicked {A} reason w.

Definition M (A : Type) : Type := world -> outcome A.

#[global] Instance M_ret : MRet M := fun A a w => Done a w.

#[global] Instance M_bind : MBind M := fun A B f m w =>
  match m w with
  | Done a w' => f a w'
  | Panicked r w' => Panicked r w'
  end.

Definition get_world : M world := fun w => Done w w.
Definition modify (f : world -> world) : M unit := fun w => Done tt (f w).
Definition panic {A} (reason : value) : M A := fun w => Panicked reason w.

(** The world a call leaves. *)
Definition after {A} (o : outcome A) : world :=
  match o with
  | Done _ w => w
  | Panicked _ w => w
  end.

(** The reason of the run-time panic of a nil pointer dereference. *)
Definition nil_dereference : value :=
  VString "invalid memory address or nil pointer dereference".

(** Dereference of a pointer that may be nil. *)
Definition deref {A} (p : option A) : M A :=
  match p with
  | Some a => mret a
  | None => panic nil_dereference
  end.

(** Another flow of control runs for a stretch.  A panic in it is its
    own: it does not reach the flow that is modelled. *)
Definition concurrently (others : M unit) : M unit :=
  fun w => Done tt (after (others w)).

(** ** Collaborators *)

(** The [Behavior] interface: the four operations a user supplies. *)
Record Behavior := mkBehavior {
  Init : loc -> M (option error);
  ProcessEvent : Event -> M (option error);
  Recover : value -> M (option error);
  Terminate : M (option error);
}.

(** The [EventQueue] interface, as the cell uses it.  [Events] returns
    the channel of events the backend loop reads. *)
Record EventQueue := mkEventQueue {
  Push : Event -> M (option error);
  Events : M loc;
  Stop : M (option error);
}.

(** What the two source files use and neither they nor the
    specification define: the implementations behind the interface
    references, the queue factory of an environment, the registry's
    [stop], and the string functions of packages [identifier] and
    [fmt]. *)
Class Collaborators := mkCollaborators {
  behaviors : loc -> Behavior;
  queues : loc -> EventQueue;
  queueFactory : loc -> M (loc + error);
  registry_stop : loc -> M (option error);
  Identifier : list value -> string;
  TypeAsIdentifierPart : loc -> string;
  UUID_String : nat -> string;
  Sprintf : string -> list value -> string;
}.

(** *** Heap access *)

Definition read_cell (c : loc) : M cell :=
  w ← get_world; deref (w_cells w !! c).

Definition read_env (e : loc) : M environment :=
  w ← get_world; deref (w_envs w !! e).

Definition read_loop (l : loc) : M loop_state :=
  w ← get_world; deref (w_loops w !! l).

Definition now : M Z := w ← get_world; mret (w_now w).

(** *** Package [logger] *)

(** Modelled from the spec: package [logger] is not part of the
    sources; a call adds a line to the log. *)
Definition logger_Infof (format : string) (args : list value) : M unit :=
  modify (set_log (fun l => l ++ [mkLog LInfo format args])).

Definition logger_Errorf (format : string) (args : list value) : M unit :=
  modify (set_log (fun l => l ++ [mkLog LError format args])).

(** *** Package [monitoring] *)

(** Modelled from the spec: package [monitoring] is not part of the
    sources.  Counters are incremented and decremented by string id;
    [BeginMeasuring] makes a span and [EndMeasuring] ends it, which
    records the measuring. *)
Record Measuring := mkMeasuring {
  m_id : string;
  m_begin : Z;
}.

Definition IncrVariable (v : string) : M unit :=
  modify (set_vars (fun vs => <[v := default 0 (vs !! v) + 1]> vs)).

Definition DecrVariable (v : string) : M unit :=
  modify (set_vars (fun vs => <[v := default 0 (vs !! v) - 1]> vs)).

Definition BeginMeasuring (mid : string) : M Measuring :=
  t ← now; mret (mkMeasuring mid t).

Definition EndMeasuring (m : Measuring) : M unit :=
  t ← now; modify (set_measurings (fun ms => ms ++ [(m_id m, t - m_begin m)])).

(** *** Package [loop] *)

(** Modelled from the spec: [GoRecoverable] starts a supervised loop,
    running and with an empty history.  The worker and the recovery
    check it is given are those of the cell that owns the loop;
    [supervise] below runs them.  The goroutine of the loop exists from
    this call on: what it does while its creator goes on is a matter of
    scheduling, which [newCell] below takes as an argument. *)
Definition GoRecoverable : M loc := fun w =>
  let l := fresh (dom (w_loops w)) in
  Done l (set_loops (insert l (mkLoop Running None [])) w).

(** Modelled from the spec: the "shall stop" signal is raised once the
    loop is asked to stop or is killed.  The result tells whether a
    receive from the signal can proceed. *)
Definition ShallStop (l : loc) : M bool :=
  ls ← read_loop l;
  mret (match l_status ls with Running => false | _ => true end).

(** Modelled from the spec: [Kill(err)] terminates the loop with the
    terminal error [err]: the error is recorded and the stop signal
    raised.  The call returns: its caller in [backendLoop] goes on with
    [continue]. *)
Definition Kill (l : loc) (err : error) : M unit :=
  ls ← read_loop l;
  modify (set_loops (insert l
    (mkLoop (match l_status ls with Stopped => Stopped | _ => Stopping end)
            (Some err) (l_recoverings ls)))).

(** Modelled from the spec: when the worker returns, the loop is
    stopped; its error is the terminal error it was killed with, or
    else the worker's result. *)
Definition loop_returned (l : loc) (r : option error) : M unit :=
  ls ← read_loop l;
  modify (set_loops (insert l
    (mkLoop Stopped
            (match l_err ls with Some e => Some e | None => r end)
            (l_recoverings ls)))).

(** *** Channels *)

Definition make_chan (cap : nat) : M loc := fun w =>
  let ch := fresh (dom (w_rchans w)) in
  Done ch (set_rchans (insert ch (mkChan cap [])) w).

(** The values a receive on a response channel can take now. *)
Definition chan_buffer (ch : loc) : M (list value) :=
  w ← get_world; c ← deref (w_rchans w !! ch); mret (ch_buf c).

(** Receive the first buffered value. *)
Definition chan_take (ch : loc) : M unit :=
  w ← get_world; c ← deref (w_rchans w !! ch);
  modify (set_rchans (insert ch (mkChan (ch_cap c) (tail (ch_buf c))))).

(** A send that does not block: it succeeds while the buffer has room. *)
Definition chan_offer (ch : loc) (v : value) : M bool :=
  w ← get_world; c ← deref (w_rchans w !! ch);
  if bool_decide (length (ch_buf c) < ch_cap c)%nat
  then modify (set_rchans (insert ch (mkChan (ch_cap c) (ch_buf c ++ [v]))));;
       mret true
  else mret false.

(** [make(chan []*cell)]: an unbuffered channel, nobody sending. *)
Definition make_schan : M loc := fun w =>
  let ch := fresh (dom (w_schans w)) in
  Done ch (set_schans (insert ch (mkSchan [] 0)) w).

(** A receive from a channel of subscriber lists: the value of the first
    waiting sender, if there is one. *)
Definition schan_recv (ch : loc) : M (option (list loc)) :=
  w ← get_world; s ← deref (w_schans w !! ch);
  match sc_offers s with
  | [] => mret None
  | cells :: rest =>
      modify (set_schans (insert ch (mkSchan rest (S (sc_received s)))));;
      mret (Some cells)
  end.

(** A send on it, first half: the sender's value is on offer behind the
    values of the senders that already wait.  The result is the number
    of receives that leave the value untaken. *)
Definition schan_offer (ch : loc) (cells : list loc) : M nat :=
  w ← get_world; s ← deref (w_schans w !! ch);
  modify (set_schans (insert ch (mkSchan (sc_offers s ++ [cells]) (sc_received s))));;
  mret (sc_received s + length (sc_offers s))%nat.

(** Second half: the sender is blocked until its value has been
    received, that is until more than [ticket] values have been.  While
    it is blocked the rest of the program runs, one stretch of
    [meanwhile] after the other.  [None]: still blocked when the
    stretches are used up. *)
Fixpoint schan_await (ch : loc) (ticket : nat) (meanwhile : list (M unit))
  : M (option unit) :=
  w ← get_world; s ← deref (w_schans w !! ch);
  if bool_decide (ticket < sc_received s)%nat then mret (Some tt)
  else
    match meanwhile with
    | [] => mret None
    | others :: rest => concurrently others;; schan_await ch ticket rest
    end.

(** A send on an unbuffered channel. *)
Definition schan_send (ch : loc) (cells : list loc) (meanwhile : list (M unit))
  : M (option unit) :=
  ticket ← schan_offer ch cells;
  schan_await ch ticket meanwhile.

(** A receive from a channel of events, if one is ready. *)
Definition echan_recv (ch : loc) : M (option Event) :=
  w ← get_world; evs ← deref (w_echans w !! ch);
  match evs with
  | [] => mret None
  | ev :: rest => modify (set_echans (insert ch rest));; mret (Some ev)
  end.

(** ** [cell.go] *)

Section Cell.
Context `{Collaborators}.

(** [cell.processEvent]: push the event into the cell's queue. *)
Definition processEvent (c : loc) (event : Event) : M (option error) :=
  cl ← read_cell c;
  Push (queues (c_queue cl)) event.

(** The [for range] of [cell.Emit] over the subscribers. *)
Fixpoint Emit_range (subs : list loc) (event : Event) : M (option error) :=
  match subs with
  | [] => mret None
  | ec :: rest =>
      err ← processEvent ec event;
      match err with
      | Some e => mret (Some e)
      | None => Emit_range rest event
      end
  end.

(** [cell.Emit]. *)
Definition Emit (c : loc) (event : Event) : M (option error) :=
  cl ← read_cell c;
  Emit_range (c_subscribers cl) event.

(** The cells [subs] take the event one after the other: each
    [processEvent] returns nil.  The result is the world after the last
    of them. *)
Fixpoint delivered (subs : list loc) (event : Event) (w : world) : option world :=
  match subs with
  | [] => Some w
  | ec :: rest =>
      match processEvent ec event w with
      | Done None w' => delivered rest event w'
      | _ => None
      end
  end.

(** [cell.EmitNew]. *)
Definition EmitNew (c : loc) (topic : string) (payload : value) (scn : Scene)
  : M (option error) :=
  match NewEvent topic payload scn with
  | inr err => mret (Some err)
  | inl event => Emit c event
  end.

(** [cell.Environment] and [cell.ID]. *)
Definition Environment (c : loc) : M loc := cl ← read_cell c; mret (c_env cl).
Definition ID (c : loc) : M string := cl ← read_cell c; mret (c_id cl).

(** [cell.updateSubscribers]: a send on the unbuffered channel
    [c.subscriberc].  It returns when the backend loop has received the
    list; [None]: the caller is still blocked in the send. *)
Definition updateSubscribers (c : loc) (cells : list loc) (meanwhile : list (M unit))
  : M (option unit) :=
  cl ← read_cell c;
  schan_send (c_subscriberc cl) cells meanwhile.

(** [environment.ID], used by the backend loop. *)
Definition env_ID (e : loc) : M string := en ← read_env e; mret (env_id en).

(** [cell.cleanup]. *)
Definition cleanup (c : loc) : M unit :=
  cl ← read_cell c;
  err ← Stop (queues (c_queue cl));
  match err with
  | Some e =>
      logger_Errorf "cannot stop queue of cell %q: %v" [VString (c_id cl); VError e]
  | None => mret tt
  end;;
  logger_Infof "cell %q terminated" [VString (c_id cl)].

(** The case a [select] of the backend loop takes.  Go chooses among the
    cases that can proceed; which one is the scheduler's choice. *)
Inductive select_case := CaseShallStop | CaseSubscribers | CaseEvent.

(** What one pass through the [for] does: go round again, return from
    the function, or stay in the [select] because the chosen case
    cannot proceed. *)
Inductive iteration :=
| Continue
| Return (r : option error)
| Waiting.

(** The [select] of [cell.backendLoop] when the scheduler offers the
    case [pick].  The channel operands are evaluated on entry, in source
    order. *)
Definition backendLoop_select (c : loc) (pick : select_case) : M iteration :=
  cl ← read_cell c;
  l ← deref (c_loop cl);
  stop ← ShallStop l;
  events ← Events (queues (c_queue cl));
  match pick with
  | CaseShallStop =>
      if stop : bool then
        r ← Terminate (behaviors (c_behavior cl));
        mret (Return r)
      else mret Waiting
  | CaseSubscribers =>
      received ← schan_recv (c_subscriberc cl);
      match received with
      | Some subscribers =>
          modify (set_cells (insert c
            (mkCell (c_env cl) (c_id cl) (c_behavior cl) subscribers
                    (c_queue cl) (c_subscriberc cl) (c_loop cl)
                    (c_measuringID cl))));;
          mret Continue
      | None => mret Waiting
      end
  | CaseEvent =>
      received ← echan_recv events;
      match received with
      | Some event =>
          measuring ← BeginMeasuring (c_measuringID cl);
          err ← ProcessEvent (behaviors (c_behavior cl)) event;
          match err with
          | Some e =>
              cl' ← read_cell c;
              l' ← deref (c_loop cl');
              Kill l' e;;
              mret Continue
          | None =>
              EndMeasuring measuring;;
              mret Continue
          end
      | None => mret Waiting
      end
  end.

(** The [for] of [cell.backendLoop] under a schedule: the cases its
    successive [select]s take.  The loop is waiting in a [select] when
    the schedule is used up or offers a case that cannot proceed. *)
Fixpoint backendLoop_for (c : loc) (sched : list select_case) : M iteration :=
  match sched with
  | [] => mret Waiting
  | pick :: rest =>
      it ← backendLoop_select c pick;
      match it with
      | Continue => backendLoop_for c rest
      | Return r => mret (Return r)
      | Waiting => mret Waiting
      end
  end.

(** Deferred calls run, last deferred first, when the function returns
    or panics; each runs even if one before it panicked, and the last
    panic is the one that goes on. *)
Fixpoint run_deferred (deferred : list (M unit)) (p : option value) (w : world)
  : option value * world :=
  match deferred with
  | [] => (p, w)
  | d :: rest =>
      match d w with
      | Done _ w' => run_deferred rest p w'
      | Panicked r w' => run_deferred rest (Some r) w'
      end
  end.

(** A function body with its deferred calls; nothing deferred runs
    while the body is still waiting. *)
Definition with_deferred (deferred : list (M unit)) (body : M iteration)
  : M iteration := fun w =>
  match body w with
  | Done (Return r) w' =>
      match run_deferred deferred None w' with
      | (None, w'') => Done (Return r) w''
      | (Some p, w'') => Panicked p w''
      end
  | Done it w' => Done it w'
  | Panicked p w' =>
      match run_deferred deferred (Some p) w' with
      | (None, w'') => Panicked p w''
      | (Some p', w'') => Panicked p' w''
      end
  end.

(** [cell.backendLoop] under a schedule. *)
Definition backendLoop (c : loc) (sched : list select_case) : M iteration :=
  cl ← read_cell c;
  IncrVariable (c_measuringID cl);;
  envID ← env_ID (c_env cl);
  IncrVariable (Identifier [VString "cells"; VString envID; VString "total-cells"]);;
  envID' ← env_ID (c_env cl);
  with_deferred
    [cleanup c;
     DecrVariable (c_measuringID cl);
     DecrVariable (Identifier [VString "cells"; VString envID'; VString "total-cells"])]
    (backendLoop_for c sched).

(** [cell.checkRecovering].  A nil history is the empty list. *)
Definition checkRecovering (c : loc) (rs : Recoverings)
  : M (Recoverings * option error) :=
  cl ← read_cell c;
  last ← deref (Last rs);
  logger_Errorf "recovering cell %q after error: %v" [VString (c_id cl); Reason last];;
  (* Check frequency. *)
  if Frequency 12 time_Minute rs then
    mret ([], Some (errors_New ErrRecoveredTooOften [Reason last]))
  else
    (* Try to recover. *)
    err ← Recover (behaviors (c_behavior cl)) (Reason last);
    match err with
    | Some e => mret ([], Some (errors_Annotate e ErrEventRecovering [Reason last]))
    | None => mret (Trim 12 rs, None)
    end.

(** Modelled from the spec: the supervisor of package [loop] is not part
    of the sources.  On a panic of the worker it adds the reason and a
    timestamp to the history and asks [checkRecovering]; on an error the
    loop is stopped for good with that error, otherwise the worker is
    restarted with the returned history.  The result tells whether the
    worker is restarted. *)
Definition loop_recover (c : loc) (reason : value) : M bool :=
  cl ← read_cell c;
  l ← deref (c_loop cl);
  ls ← read_loop l;
  t ← now;
  checked ← checkRecovering c (l_recoverings ls ++ [mkRecovering t reason]);
  match checked with
  | (_, Some err) =>
      modify (set_loops (insert l
        (mkLoop Stopped (Some err) (l_recoverings ls ++ [mkRecovering t reason]))));;
      mret false
  | (trimmed, None) =>
      modify (set_loops (insert l (mkLoop (l_status ls) (l_err ls) trimmed)));;
      mret true
  end.

(** Modelled from the spec: the supervised run of the cell's worker.
    Each schedule drives one start of the worker; a panic is handed to
    [loop_recover]. *)
Fixpoint supervise (c : loc) (scheds : list (list select_case)) : M loop_status :=
  match scheds with
  | [] => mret Running
  | sched :: rest => fun w =>
      match backendLoop c sched w with
      | Done (Return r) w' =>
          (cl ← read_cell c; l ← deref (c_loop cl);
           loop_returned l r;; mret Stopped) w'
      | Done _ w' => Done Running w'
      | Panicked reason w' =>
          (restart ← loop_recover c reason;
           if restart : bool then supervise c rest else mret Stopped) w'
      end
  end.

(** A stretch of the goroutine that [GoRecoverable] starts for the cell
    [c]: its worker, [c.backendLoop], runs under a schedule. *)
Definition worker (sched : list select_case) (c : loc) : M unit :=
  backendLoop c sched;; mret tt.

(** [newCell].  The statement [c.loop = loop.GoRecoverable(...)] is two
    steps: the call starts the goroutine of the backend loop, and then
    its result is stored in [c.loop]; [Init] of the behavior is called
    after that.  The goroutine runs beside these steps.  What it (and
    the rest of the program) does before [c.loop] is assigned is
    [early], what it does between the assignment and the call of [Init]
    is [late]; both get the new cell. *)
Definition newCell (env : loc) (id : string) (behavior : loc)
  (early late : loc -> M unit) : M (option loc * option error) :=
  (* Create queue. *)
  created ← queueFactory env;
  match created with
  | inr err => mret (None, Some (errors_Annotate err ErrCellInit [VString id]))
  | inl queue =>
      (* Init cell runtime. *)
      en ← read_env env;
      subscriberc ← make_schan;
      c ← (fun w =>
             let c := fresh (dom (w_cells w)) in
             Done c (set_cells (insert c
               (mkCell env id behavior [] queue subscriberc None
                  (Identifier [VString "cells"; VString (env_id en); VString "cell";
                               VString (TypeAsIdentifierPart behavior)]))) w));
      l ← GoRecoverable;
      concurrently (early c);;
      cl ← read_cell c;
      modify (set_cells (insert c
        (mkCell (c_env cl) (c_id cl) (c_behavior cl) (c_subscribers cl)
                (c_queue cl) (c_subscriberc cl) (Some l) (c_measuringID cl))));;
      concurrently (late c);;
      (* Init behavior. *)
      err ← Init (behaviors behavior) c;
      match err with
      | Some e => mret (None, Some (errors_Annotate e ErrCellInit [VString id]))
      | None =>
          logger_Infof "cell %q started" [VString id];;
          mret (Some c, None)
      end
  end.

(** The world after the log line [checkRecovering] starts with. *)
Definition recovering_logged (cl : cell) (last : Recovering) (w : world) : world :=
  set_log (fun l => l ++ [mkLog LError "recovering cell %q after error: %v"
                            [VString (c_id cl); Reason last]]) w.

End Cell.

(** ** The environment *)

Section Environment.
Context `{Collaborators}.

(** Package [runtime]: [SetFinalizer(env, f)]; a nil [f] clears. *)
Definition SetFinalizer (e : loc) (f : option finalizer) : M unit :=
  modify (set_finalizers (fun fs =>
    match f with
    | Some fin => <[e := fin]> fs
    | None => delete e fs
    end)).

(** Package [identifier]: a new UUID drawn from the world's entropy. *)
Definition NewUUID : M nat := fun w =>
  Done (w_entropy w) (set_entropy S w).

(** [NewEnvironment]. *)
Definition NewEnvironment (idParts : list value) : M loc :=
  id ← (if (length idParts =? 0)%nat
        then u ← NewUUID; mret (UUID_String u)
        else mret (Identifier idParts));
  e ← (fun w =>
         let e := fresh (dom (w_envs w)) in
         Done e (set_envs (insert e
           (mkEnvironment id newRegistry NewNullMonitoring)) w));
  SetFinalizer e (Some FinalizerStop);;
  envID ← env_ID e;
  logger_Infof "cells environment %q started" [VString envID];;
  mret e.

(** [environment.SetMonitoring] and [environment.monitoring]. *)
Definition SetMonitoring (e : loc) (m : Monitoring) : M unit :=
  en ← read_env e;
  modify (set_envs (insert e (mkEnvironment (env_id en) (env_cells en) m))).

Definition monitoring (e : loc) : M Monitoring :=
  en ← read_env e; mret (env_monitor en).

(** Modelled from the spec: the registry's [cells(id)] is not part of
    the sources; it is a lookup that returns a single-element sequence,
    or fails with [CellNotFound]. *)
Definition registry_cells (e : loc) (id : string) : M (list loc + error) :=
  en ← read_env e;
  match r_cells (env_cells en) !! id with
  | Some c => mret (inl [c])
  | None => mret (inr (errors_New ErrCellNotFound [VString id]))
  end.

(** [environment.HasCell]. *)
Definition HasCell (e : loc) (id : string) : M bool :=
  found ← registry_cells e id;
  match found with
  | inl _ => mret true
  | inr _ => mret false
  end.

(** [environment.Emit].  The source calls [cs[0].ProcessEvent(event)];
    the method of the cell that takes an event is [processEvent], and
    the specification names that one. *)
Definition env_Emit (e : loc) (id : string) (event : Event) : M (option error) :=
  found ← registry_cells e id;
  match found with
  | inr err => mret (Some err)
  | inl cs =>
      c ← deref (cs !! 0%nat);
      processEvent c event
  end.

(** [environment.EmitNew]. *)
Definition env_EmitNew (e : loc) (id topic : string) (payload : value) (scn : Scene)
  : M (option error) :=
  match NewEvent topic payload scn with
  | inr err => mret (Some err)
  | inl event => env_Emit e id event
  end.

(** The two cases of the [select] of [Request], and what it takes. *)
Inductive request_case := CaseResponse | CaseAfter.

Inductive selected :=
| Response (response : value)
| After.

(** The [select] of [Request] on the response channel and a timer that
    is due at [deadline].  A case can proceed when the channel holds a
    value, respectively when the deadline is reached; when both can,
    [tie] is the one Go chooses; when neither can, the caller is parked
    and the rest of the program runs, one stretch of [parked] after the
    other.  [None]: still parked when the stretches are used up. *)
Fixpoint select_response (responseChan : loc) (deadline : Z) (tie : request_case)
  (parked : list (M unit)) : M (option selected) :=
  buffered ← chan_buffer responseChan;
  t ← now;
  match buffered, bool_decide (deadline <= t) with
  | response :: _, false =>
      chan_take responseChan;; mret (Some (Response response))
  | response :: _, true =>
      match tie with
      | CaseResponse => chan_take responseChan;; mret (Some (Response response))
      | CaseAfter => mret (Some After)
      end
  | [], true => mret (Some After)
  | [], false =>
      match parked with
      | [] => mret None
      | others :: rest => others;; select_response responseChan deadline tie rest
      end
  end.


(** [environment.Request].  The timer of [time.After(timeout)] is due
    [timeout] after the [select] is entered, on the clock of the world;
    the clock moves only with the stretches that run while the caller
    is parked.  [None]: the caller is still in the [select]. *)
Definition Request (e : loc) (id topic : string) (payload : value) (scn : Scene)
  (timeout : Z) (tie : request_case) (parked : list (M unit))
  : M (option (option value * option error)) :=
  responseChan ← make_chan 1;
  let p := Apply (NewPayload payload) [(ResponseChanPayload, VChan responseChan)] in
  err ← env_EmitNew e id topic (VPayload p) scn;
  match err with
  | Some err => mret (Some (None, Some err))
  | None =>
      t ← now;
      taken ← select_response responseChan (t + timeout) tie parked;
      match taken with
      | Some (Response response) =>
          match response with
          | VError err => mret (Some (None, Some err))
          | _ => mret (Some (Some response, None))
          end
      | Some After =>
          let op := Sprintf "requesting %q from %q" [VString topic; VString id] in
          mret (Some (None, Some (errors_New ErrTimeout [VString op])))
      | None => mret None
      end
  end.

(** What [Request] returns for what its [select] takes. *)
Definition Request_returns (topic id : string) (taken : outcome (option selected))
  : outcome (option (option value * option error)) :=
  match taken with
  | Done (Some (Response response)) w2 =>
      Done (Some (match response with
                  | VError err => (None, Some err)
                  | _ => (Some response, None)
                  end)) w2
  | Done (Some After) w2 =>
      Done (Some (None, Some (errors_New ErrTimeout
              [VString (Sprintf "requesting %q from %q"
                          [VString topic; VString id])]))) w2
  | Done None w2 => Done None w2
  | Panicked r w2 => Panicked r w2
  end.

(** [environment.Stop]. *)
Definition env_Stop (e : loc) : M (option error) :=
  SetFinalizer e None;;
  err ← registry_stop e;
  match err with
  | Some err => mret (Some err)
  | None =>
      envID ← env_ID e;
      logger_Infof "cells environment %q terminated" [VString envID];;
      mret None
  end.

(** Package [runtime]: at teardown the finalizer of an object that
    still has one is run. *)
Definition run_finalizer (e : loc) : M unit :=
  w ← get_world;
  match w_finalizers w !! e with
  | Some FinalizerStop => env_Stop e;; mret tt
  | None => mret tt
  end.

End Environment.

(** ** Monitoring variables *)

(** The value of a monitoring variable; one that was never set counts
    as 0. *)
Definition counter (v : string) (w : world) : Z := default 0 (w_vars w !! v).

(** A call that leaves the monitoring variables as they are, whether it
    returns or panics. *)
Definition keeps_vars {A : Type} (m : M A) : Prop :=
  forall w, w_vars (after (m w)) = w_vars w.

(** ** A concrete runtime

    Implementations of the collaborators, to run the definitions on:
    the bounded mailbox of the specification's queue contract, a
    behavior that keeps the topics it has processed in its private
    memory, and one whose [Init] fails. *)

Module Demo.

(** Modelled from the spec: [Push] of the mailbox at [q] fails with
    [QueueStopped] after [Stop] and with [QueueFull] when saturated. *)
Definition mailbox_Push (q : loc) (event : Event) : M (option error) :=
  w ← get_world;
  mb ← deref (w_mailboxes w !! q);
  evs ← deref (w_echans w !! mb_events mb);
  if mb_stopped mb then mret (Some (errors_New ErrQueueStopped []))
  else if bool_decide (mb_capacity mb <= length evs)%nat
  then mret (Some (errors_New ErrQueueFull []))
  else modify (set_echans (insert (mb_events mb) (evs ++ [event])));; mret None.

Definition mailbox_Events (q : loc) : M loc :=
  w ← get_world;
  mb ← deref (w_mailboxes w !! q);
  mret (mb_events mb).

Definition mailbox_Stop (q : loc) : M (option error) :=
  w ← get_world;
  mb ← deref (w_mailboxes w !! q);
  modify (set_mailboxes (insert q (mkMailbox (mb_events mb) (mb_capacity mb) true)));;
  mret None.

Definition mailbox (q : loc) : EventQueue :=
  mkEventQueue (mailbox_Push q) (mailbox_Events q) (mailbox_Stop q).

(** The factory makes a mailbox of capacity 8. *)
Definition mailbox_factory (e : loc) : M (loc + error) := fun w =>
  let ch := fresh (dom (w_echans w)) in
  let q := fresh (dom (w_mailboxes w)) in
  Done (inl q)
    (set_mailboxes (insert q (mkMailbox ch 8 false))
       (set_echans (insert ch []) w)).

(** Append to the private memory of the behavior at [b]. *)
Definition remember (b : loc) (v : value) : M unit :=
  modify (set_private (fun m =>
    <[b := VList (match m !! b with
                  | Some (VList vs) => vs ++ [v]
                  | _ => [v]
                  end)]> m)).

(** The recording behavior: it notes "init" when it is initialised and
    the topic of each event it is given; it fails on topic "fail",
    panics on topic "panic", and answers a request on topic "square"
    with the square of entry "n". *)
Definition recorder_ProcessEvent (b : loc) (event : Event) : M (option error) :=
  remember b (VString (ev_topic event));;
  if String.eqb (ev_topic event) "fail" then
    mret (Some (ForeignError "cannot process"))
  else if String.eqb (ev_topic event) "panic" then
    panic (VString "boom")
  else if String.eqb (ev_topic event) "square" then
    match payload_get "n" (ev_payload event),
          payload_get ResponseChanPayload (ev_payload event) with
    | Some (VInt n), Some (VChan ch) => chan_offer ch (VInt (n * n));; mret None
    | _, _ => mret None
    end
  else mret None.

Definition recorder_Recover (reason : value) : M (option error) :=
  match reason with
  | VString "fatal" => mret (Some (ForeignError "cannot recover"))
  | _ => mret None
  end.

Definition recorder (b : loc) : Behavior :=
  mkBehavior
    (fun c => remember b (VString "init");; mret None)
    (recorder_ProcessEvent b)
    recorder_Recover
    (mret None).

(** The behavior whose [Init] fails; it notes what it is given like
    the recording one. *)
Definition broken (b : loc) : Behavior :=
  mkBehavior
    (fun c => remember b (VString "init");;
              mret (Some (ForeignError "cannot init")))
    (recorder_ProcessEvent b)
    (fun _ => mret None)
    (mret None).

(** The behavior at reference 13 is the broken one. *)
Definition demo_behaviors (b : loc) : Behavior :=
  if (b =? 13)%nat then broken b else recorder b.

(** A registry [stop] that reports the terminal errors of the loops of
    the registered cells as one [Stopped] error. *)
Definition loop_errors (w : world) (e : loc) : list value :=
  match w_envs w !! e with
  | None => []
  | Some en =>
      omap (fun ic =>
              cl ← w_cells w !! ic.2;
              l ← c_loop cl;
              ls ← w_loops w !! l;
              VError <$> l_err ls)
           (map_to_list (r_cells (env_cells en)))
  end.

Definition demo_registry_stop (e : loc) : M (option error) := fun w =>
  match loop_errors w e with
  | [] => Done None w
  | errs => Done (Some (errors_New ErrStopped errs)) w
  end.

Fixpoint join (sep : string) (parts : list string) : string :=
  match parts with
  | [] => ""
  | [p] => p
  | p :: rest => p +:+ sep +:+ join sep rest
  end.

Definition show (v : value) : string :=
  match v with
  | VString s => s
  | _ => "?"
  end.

#[local] Instance collaborators : Collaborators :=
  mkCollaborators demo_behaviors mailbox mailbox_factory demo_registry_stop
    (fun parts => join ":" (show <$> parts))
    (fun b => "behavior")
    (fun u => "uuid-" +:+ pretty u)
    (fun format args => format +:+ " " +:+ join " " (show <$> args)).

(** *** Worlds to run on *)

Definition ev (topic : string) : Event := mkEvent topic [] None.

Definition cellOf (i : nat) (name : string) (subs : list loc) : cell :=
  mkCell 0 name i subs i i (Some i) "cells:env:cell:behavior".

Definition cell_a : cell := cellOf 0 "a" [1; 2; 3]%nat.

Definition running : loop_state := mkLoop Running None [].

(** Environment 0 with the cells "a" to "d" at 0 to 3, each with its
    mailbox, loop and channels at its own number.  "a" has the
    subscribers "b", "c" and "d"; the mailbox of "c" is stopped. *)
Definition start : world :=
  mkWorld
    (list_to_map [(0, cell_a); (1, cellOf 1 "b" []); (2, cellOf 2 "c" []);
                  (3, cellOf 3 "d" [])]%nat)
    {[ 0%nat := mkEnvironment "env"
         (mkRegistry (list_to_map [("a", 0); ("b", 1); ("c", 2); ("d", 3)]%nat) ∅)
         NullMonitoring ]}
    (list_to_map [(0, running); (1, running); (2, running); (3, running)]%nat)
    ∅
    (list_to_map [(0, mkSchan [] 0); (1, mkSchan [] 0); (2, mkSchan [] 0);
                  (3, mkSchan [] 0)]%nat)
    (list_to_map [(0, []); (1, []); (2, []); (3, [])]%nat)
    (list_to_map [(0, mkMailbox 0 8 false); (1, mkMailbox 1 8 false);
                  (2, mkMailbox 2 8 true); (3, mkMailbox 3 8 false)]%nat)
    ∅ ∅ ∅ [] [] 0 0%nat.

(** The queue of "a" holds two events; the behavior fails on the first. *)
Definition two_events : world :=
  set_echans (insert 0%nat [ev "fail"; ev "ok"]) start.

Definition after_error : world :=
  after (backendLoop_select 0%nat CaseEvent two_events).

Definition after_second : world :=
  after (backendLoop_select 0%nat CaseEvent after_error).

(** Recoverings one second apart, the first at [from] seconds. *)
Definition burst (from : Z) (n : nat) : Recoverings :=
  (fun k => mkRecovering (k * time_Second) (VString "boom")) <$> seqZ from (Z.of_nat n).

(** The loop of "a" has recovered 11 times in 11 seconds and its queue
    holds an event on which the behavior panics. *)
Definition before_panic : world :=
  set_now (fun _ => 11 * time_Second)
    (set_loops (insert 0%nat (mkLoop Running None (burst 0 11)))
       (set_echans (insert 0%nat [ev "panic"]) start)).

Definition panicked : world := after (backendLoop 0%nat [CaseEvent] before_panic).

(** Twenty events on each of which the behavior of "a" panics. *)
Definition all_panic : world :=
  set_echans (insert 0%nat (replicate 20 (ev "panic"))) start.

(** The mailbox of "c" works again. *)
Definition all_open : world :=
  set_mailboxes (insert 2%nat (mkMailbox 2 8 false)) start.

(** The loop of "a" has ended with an error, and environment 0 has its
    finalizer. *)
Definition failed : world :=
  set_finalizers (insert 0%nat FinalizerStop)
    (set_loops (insert 0%nat
       (mkLoop Stopped (Some (ForeignError "cannot process")) [])) start).

(** Nothing else runs. *)
Definition idle (c : loc) : M unit := mret tt.

(** Time passes. *)
Definition time_passes (d : Z) : M unit := modify (set_now (fun t => t + d)).

(** The payload of the request for the square of 7. *)
Definition seven : value := VPayload [("n", VInt 7)].

(** What the rest of the program does while the caller is parked: the
    backend loop of "a" takes the event. *)
Definition a_works : M unit := backendLoop_select 0%nat CaseEvent;; mret tt.

(** The world after the emission of the request to "a". *)
Definition requested : world :=
  after (env_EmitNew 0%nat "a" "square"
           (VPayload (Apply (NewPayload seven) [(ResponseChanPayload, VChan 0%nat)]))
           None (after (make_chan 1 Demo.start))).

(** *** More to run on *)

(** Twenty recoverings ten seconds apart: seven lie within the last
    minute. *)
Definition sparse : Recoverings :=
  (fun k => mkRecovering (k * 10 * time_Second) (VString "boom")) <$> seqZ 0 20.

(** A queue without a mailbox: [Push] hands the event to the recording
    behavior at once. *)
Definition direct (q : loc) : EventQueue :=
  mkEventQueue (recorder_ProcessEvent q) (mailbox_Events q) (mailbox_Stop q).

Definition collaborators_direct : Collaborators :=
  mkCollaborators demo_behaviors direct mailbox_factory demo_registry_stop
    (fun parts => join ":" (show <$> parts))
    (fun b => "behavior")
    (fun u => "uuid-" +:+ pretty u)
    (fun format args => format +:+ " " +:+ join " " (show <$> args)).

(** The world after the emission of the request to "a" through the
    direct queue: the answer is in the response channel. *)
Definition answered : world :=
  after (env_EmitNew (H := collaborators_direct) 0%nat "a" "square"
           (VPayload (Apply (NewPayload seven) [(ResponseChanPayload, VChan 0%nat)]))
           None (after (make_chan 1 start))).

(** A factory whose queue already holds an event when it is handed
    over. *)
Definition prefilled_factory (e : loc) : M (loc + error) := fun w =>
  let ch := fresh (dom (w_echans w)) in
  let q := fresh (dom (w_mailboxes w)) in
  Done (inl q)
    (set_mailboxes (insert q (mkMailbox ch 8 false))
       (set_echans (insert ch [ev "early"]) w)).

Definition collaborators_prefilled : Collaborators :=
  mkCollaborators demo_behaviors mailbox prefilled_factory demo_registry_stop
    (fun parts => join ":" (show <$> parts))
    (fun b => "behavior")
    (fun u => "uuid-" +:+ pretty u)
    (fun format args => format +:+ " " +:+ join " " (show <$> args)).

(** The cell "a" as [newCell] has it before its loop is assigned. *)
Definition unassigned : world :=
  set_cells (insert 0%nat
    (mkCell 0 "a" 0 [1; 2; 3]%nat 0 0 None "cells:env:cell:behavior")) start.

(** The record of environment 0 in [start]. *)
Definition env_0 : environment :=
  mkEnvironment "env"
    (mkRegistry (list_to_map [("a", 0); ("b", 1); ("c", 2); ("d", 3)]%nat) ∅)
    NullMonitoring.

End Demo.

(** * Properties *)

(** Unfold the monad down to the world. *)
Ltac run :=
  unfold read_cell, read_env, read_loop, now, get_world, deref, modify, panic,
    mbind, M_bind, mret, M_ret in *; simpl in *.

(** Reduce the projections of an updated world. *)
Ltac fields :=
  cbn [w_cells w_envs w_loops w_rchans w_schans w_echans w_mailboxes w_private
       w_finalizers w_vars w_measurings w_log w_now w_entropy
       set_cells set_envs set_loops set_rchans set_schans set_echans
       set_mailboxes set_private set_finalizers set_vars set_measurings
       set_log set_now set_entropy] in *.

Lemma bind_Done {A B : Type} (m : M A) (f : A -> M B) (w w' : world) (a : A) :
  m w = Done a w' -> (m ≫= f) w = f a w'.
Proof. intros Hm. unfold mbind, M_bind. now rewrite Hm. Qed.

Section Properties.
Context `{Collaborators}.

(** ** [cell.Emit] *)

Lemma Emit_reads_subscribers (c : loc) (cl : cell) (event : Event) (w : world) :
  w_cells w !! c = Some cl ->
  Emit c event w = Emit_range (c_subscribers cl) event w.
Proof.
  intros Hc. unfold Emit. run. now rewrite Hc.
Qed.

Lemma Emit_range_stops_at_failure (before after : list loc) (ec : loc)
  (event : Event) (w w1 w' : world) (err : error) :
  delivered before event w = Some w1 ->
  processEvent ec event w1 = Done (Some err) w' ->
  Emit_range (before ++ ec :: after) event w = Done (Some err) w'.
Proof.
  revert w. induction before as [|b before IH]; intros w Hdel Hfail.
  - cbn [delivered] in Hdel. injection Hdel as ->.
    cbn [app Emit_range]. unfold mbind, M_bind. now rewrite Hfail.
  - cbn [delivered] in Hdel. cbn [app Emit_range].
    unfold mbind at 1, M_bind at 1.
    destruct (processEvent b event w) as [[e|] w2|r w2]; try discriminate.
    now apply IH.
Qed.

Lemma Emit_range_reaches_all (subs : list loc) (event : Event) (w w' : world) :
  delivered subs event w = Some w' ->
  Emit_range subs event w = Done None w'.
Proof.
  revert w. induction subs as [|s subs IH]; intros w Hdel;
    cbn [delivered Emit_range] in *.
  - now injection Hdel as ->.
  - unfold mbind at 1, M_bind at 1.
    destruct (processEvent s event w) as [[e|] w2|r w2]; try discriminate.
    now apply IH.
Qed.

(** Every result of the range comes from a subscriber that failed (or
    panicked) after all before it took the event, or from all of them
    taking it. *)
Lemma Emit_range_inv (subs : list loc) (event : Event) (w : world) :
  match Emit_range subs event w with
  | Done None w' => delivered subs event w = Some w'
  | Done (Some err) w' =>
      exists before ec after w1,
        subs = before ++ ec :: after /\
        delivered before event w = Some w1 /\
        processEvent ec event w1 = Done (Some err) w'
  | Panicked r w' =>
      exists before ec after w1,
        subs = before ++ ec :: after /\
        delivered before event w = Some w1 /\
        processEvent ec event w1 = Panicked r w'
  end.
Proof.
  revert w. induction subs as [|s subs IH]; intros w; cbn [Emit_range delivered].
  - reflexivity.
  - unfold mbind at 1, M_bind at 1.
    destruct (processEvent s event w) as [[e|] w2|r w2] eqn:Hs.
    + now exists [], s, subs, w.
    + specialize (IH w2).
      destruct (Emit_range subs event w2) as [[e|] w3|r w3].
      * destruct IH as (before & ec & after & w1 & -> & Hd & Hf).
        exists (s :: before), ec, after, w1.
        cbn [delivered]. rewrite Hs. now repeat split.
      * exact IH.
      * destruct IH as (before & ec & after & w1 & -> & Hd & Hf).
        exists (s :: before), ec, after, w1.
        cbn [delivered]. rewrite Hs. now repeat split.
    + now exists [], s, subs, w.
Qed.

(** C3.  [Emit] forwards the event to the subscribers in order, by
    [processEvent] on each.  If a subscriber's [processEvent] returns an
    error after all subscribers before it took the event, [Emit] returns
    that error in the world that call left: no subscriber after it is
    called.  If all take it, [Emit] returns nil.  Every result of [Emit]
    that is an error arises in the first way. *)
Theorem Emit_forwards_until_first_failure (c : loc) (cl : cell) (event : Event)
  (w : world) :
  w_cells w !! c = Some cl ->
  (forall before ec after w1 err w',
      c_subscribers cl = before ++ ec :: after ->
      delivered before event w = Some w1 ->
      processEvent ec event w1 = Done (Some err) w' ->
      Emit c event w = Done (Some err) w') /\
  (forall w',
      delivered (c_subscribers cl) event w = Some w' ->
      Emit c event w = Done None w') /\
  (forall err w',
      Emit c event w = Done (Some err) w' ->
      exists before ec after w1,
        c_subscribers cl = before ++ ec :: after /\
        delivered before event w = Some w1 /\
        processEvent ec event w1 = Done (Some err) w').
Proof.
  intros Hc. rewrite (Emit_reads_subscribers c cl event w Hc).
  split; [|split].
  - intros before ec after w1 err w' -> Hd Hf.
    now apply Emit_range_stops_at_failure with (w1 := w1).
  - intros w' Hd. now apply Emit_range_reaches_all.
  - intros err w' He.
    pose proof (Emit_range_inv (c_subscribers cl) event w) as Hinv.
    now rewrite He in Hinv.
Qed.

(** ** [cell.checkRecovering] *)

Lemma within_last_has_last (num : nat) (dur : Z) (rs : Recoverings) :
  (0 < num)%nat ->
  (num <= length (within_last dur rs))%nat ->
  exists last, Last rs = Some last.
Proof.
  unfold within_last. intros Hnum Hf.
  destruct (Last rs) as [l|]; [now exists l|].
  simpl in Hf. lia.
Qed.

Lemma Trim_length (l : nat) (rs : Recoverings) :
  length (Trim l rs) = (l `min` length rs)%nat.
Proof. unfold Trim. rewrite length_drop. lia. Qed.

Lemma Trim_most_recent (l : nat) (rs : Recoverings) :
  rs = take (length rs - l) rs ++ Trim l rs.
Proof. unfold Trim. now rewrite take_drop. Qed.

(** C2.  If the history records 12 or more recoverings within the last
    minute, [checkRecovering] returns the error [RecoveredTooOften]
    (made of the last reason) and no history.  When that history is the
    one the supervisor hands over after a panic of the worker, the loop
    of the cell is stopped for good with that error. *)
Theorem checkRecovering_too_often (c : loc) (cl : cell) (rs : Recoverings)
  (w : world) :
  w_cells w !! c = Some cl ->
  (12 <= length (within_last time_Minute rs))%nat ->
  exists last,
    Last rs = Some last /\
    checkRecovering c rs w =
      Done ([], Some (errors_New ErrRecoveredTooOften [Reason last]))
           (recovering_logged cl last w) /\
    (forall l ls reason w0 sched rest,
        backendLoop c sched w0 = Panicked reason w ->
        c_loop cl = Some l ->
        w_loops w !! l = Some ls ->
        rs = l_recoverings ls ++ [mkRecovering (w_now w) reason] ->
        exists w',
          supervise c (sched :: rest) w0 = Done Stopped w' /\
          w_loops w' !! l =
            Some (mkLoop Stopped
                    (Some (errors_New ErrRecoveredTooOften [reason])) rs)).
Proof.
  intros Hc Hmany.
  destruct (within_last_has_last 12 time_Minute rs ltac:(lia) Hmany) as [last Hl].
  assert (Hf : Frequency 12 time_Minute rs = true)
    by now apply bool_decide_eq_true_2.
  exists last.
  assert (Hcheck : checkRecovering c rs w =
      Done ([], Some (errors_New ErrRecoveredTooOften [Reason last]))
           (recovering_logged cl last w)).
  { unfold checkRecovering. run. rewrite Hc, Hl. simpl.
    unfold logger_Errorf. run. now rewrite Hf. }
  split; [exact Hl|]. split; [exact Hcheck|].
  intros l ls reason w0 sched rest Hpanic Hloop Hls Hrs.
  assert (Hlast : last = mkRecovering (w_now w) reason).
  { subst rs. unfold Last in Hl. rewrite last_snoc in Hl. congruence. }
  cbn [supervise]. rewrite Hpanic.
  unfold loop_recover. run. rewrite Hc, Hloop. simpl. rewrite Hls. simpl.
  rewrite <- Hrs. fold (checkRecovering c rs w). rewrite Hcheck.
  eexists. split; [reflexivity|].
  simpl. rewrite lookup_insert_eq. now rewrite Hlast.
Qed.

(** C5.  With fewer than 12 recoverings in the last minute,
    [checkRecovering] calls [Recover] of the behavior with the last
    reason.  If that returns an error, the result is an
    [EventRecovering] error that wraps it; otherwise the result is the
    history trimmed to its 12 most recent entries. *)
Theorem checkRecovering_recovers (c : loc) (cl : cell) (rs : Recoverings)
  (last : Recovering) (w : world) :
  w_cells w !! c = Some cl ->
  Last rs = Some last ->
  (length (within_last time_Minute rs) < 12)%nat ->
  match Recover (behaviors (c_behavior cl)) (Reason last)
          (recovering_logged cl last w) with
  | Done (Some e) w' =>
      exists err,
        checkRecovering c rs w = Done ([], Some err) w' /\
        err = errors_Annotate e ErrEventRecovering [Reason last] /\
        error_code err = Some ErrEventRecovering /\
        error_cause err = Some e
  | Done None w' =>
      checkRecovering c rs w = Done (Trim 12 rs, None) w' /\
      rs = take (length rs - 12) rs ++ Trim 12 rs /\
      length (Trim 12 rs) = (12 `min` length rs)%nat
  | Panicked r w' => checkRecovering c rs w = Panicked r w'
  end.
Proof.
  intros Hc Hl Hfew.
  assert (Hf : Frequency 12 time_Minute rs = false)
    by (apply bool_decide_eq_false_2; lia).
  unfold checkRecovering. run. rewrite Hc, Hl. simpl.
  unfold logger_Errorf. run. rewrite Hf.
  fold (recovering_logged cl last w).
  destruct (Recover (behaviors (c_behavior cl)) (Reason last)
              (recovering_logged cl last w)) as [[e|] w'|r w'].
  - eexists. repeat split.
  - repeat split.
    + apply Trim_most_recent.
    + apply Trim_length.
  - reflexivity.
Qed.

(** ** [cell.backendLoop] *)

(** X12.  When the [select] of the backend loop takes an event from
    the queue, a measuring span is begun and
    [ProcessEvent] of the behavior is called with the event.  If that
    returns an error, the loop is killed with it: the error is the
    loop's terminal error, the stop signal is raised, the span is not
    ended, and the [for] goes round again; a [select] that then takes
    the stop case returns what [Terminate] returns.  If [ProcessEvent]
    returns nil, the span is ended. *)
Theorem backendLoop_dequeued_event (c : loc) (cl : cell) (l : loc)
  (ls : loop_state) (events : loc) (event : Event) (rest : list Event)
  (w w1 : world) :
  w_cells w !! c = Some cl ->
  c_loop cl = Some l ->
  w_loops w !! l = Some ls ->
  Events (queues (c_queue cl)) w = Done events w1 ->
  w_echans w1 !! events = Some (event :: rest) ->
  let w2 := set_echans (insert events rest) w1 in
  match ProcessEvent (behaviors (c_behavior cl)) event w2 with
  | Done (Some err) w3 =>
      forall cl' l' ls',
        w_cells w3 !! c = Some cl' ->
        c_loop cl' = Some l' ->
        w_loops w3 !! l' = Some ls' ->
        exists w4,
          backendLoop_select c CaseEvent w = Done Continue w4 /\
          Kill l' err w3 = Done tt w4 /\
          (exists st, st <> Running /\
             w_loops w4 !! l' = Some (mkLoop st (Some err) (l_recoverings ls'))) /\
          ShallStop l' w4 = Done true w4 /\
          w_measurings w4 = w_measurings w3 /\
          (forall events' w5,
              Events (queues (c_queue cl')) w4 = Done events' w5 ->
              backendLoop_select c CaseShallStop w4 =
                (r ← Terminate (behaviors (c_behavior cl')); mret (Return r)) w5)
  | Done None w3 =>
      backendLoop_select c CaseEvent w =
        Done Continue
          (set_measurings
             (fun ms => ms ++ [(c_measuringID cl, w_now w3 - w_now w2)]) w3)
  | Panicked r w3 => backendLoop_select c CaseEvent w = Panicked r w3
  end.
Proof.
  intros Hc Hl Hls Hev Hbuf w2.
  unfold backendLoop_select, ShallStop, echan_recv, BeginMeasuring. run.
  rewrite Hc, Hl. simpl. rewrite Hls. simpl. rewrite Hev, Hbuf. simpl.
  fold w2.
  destruct (ProcessEvent (behaviors (c_behavior cl)) event w2)
    as [[err|] w3|r w3]; [|reflexivity|reflexivity].
  intros cl' l' ls' Hc' Hl' Hls'.
  unfold Kill. run. rewrite Hc', Hl'. simpl. rewrite Hls'. simpl.
  eexists. split; [reflexivity|]. split; [reflexivity|].
  split; [|split; [|split]].
  - exists (match l_status ls' with Stopped => Stopped | _ => Stopping end).
    split; [now destruct (l_status ls')|]. fields. now rewrite lookup_insert_eq.
  - fields. rewrite lookup_insert_eq. simpl. now destruct (l_status ls').
  - reflexivity.
  - intros events' w5 Hev'. fields. rewrite Hc', Hl'. simpl.
    rewrite lookup_insert_eq. simpl. rewrite Hev'.
    now destruct (l_status ls').
Qed.

(** ** [environment.Request] *)








Lemma Request_waits (e : loc) (id topic : string) (payload : value)
  (scn : Scene) (timeout : Z) (tie : request_case) (parked : list (M unit))
  (ch : loc) (w w0 w1 : world) :
  make_chan 1 w = Done ch w0 ->
  env_EmitNew e id topic
    (VPayload (Apply (NewPayload payload) [(ResponseChanPayload, VChan ch)]))
    scn w0 = Done None w1 ->
  Request e id topic payload scn timeout tie parked w =
    Request_returns topic id
      (select_response ch (w_now w1 + timeout) tie parked w1).
Proof.
  intros Hmk Hemit. unfold Request.
  rewrite (bind_Done _ _ _ _ _ Hmk). cbv zeta.
  rewrite (bind_Done _ _ _ _ _ Hemit).
  unfold now at 1, get_world.
  unfold mbind at 1 2, M_bind at 1 2. unfold mret at 1, M_ret at 1.
  unfold mbind, M_bind, Request_returns.
  destruct (select_response ch (w_now w1 + timeout) tie parked w1)
    as [[[response|]|] w2|r w2]; try reflexivity.
  now destruct response.
Qed.


(** C7.  With timeout 0 the timer case can proceed as soon as the
    [select] is entered.  [Request] then returns a value only if the
    response channel already holds it at that moment, and returns the
    [Timeout] error if the channel holds nothing. *)
Theorem Request_timeout_zero (e : loc) (id topic : string) (payload : value)
  (scn : Scene) (tie : request_case) (parked : list (M unit))
  (ch : loc) (c : chan) (w w0 w1 : world) :
  make_chan 1 w = Done ch w0 ->
  env_EmitNew e id topic
    (VPayload (Apply (NewPayload payload) [(ResponseChanPayload, VChan ch)]))
    scn w0 = Done None w1 ->
  w_rchans w1 !! ch = Some c ->
  (forall v w2,
      Request e id topic payload scn 0 tie parked w = Done (Some (Some v, None)) w2 ->
      exists rest, ch_buf c = v :: rest) /\
  (ch_buf c = [] ->
   Request e id topic payload scn 0 tie parked w =
     Done (Some (None, Some (errors_New ErrTimeout
             [VString (Sprintf "requesting %q from %q"
                         [VString topic; VString id])]))) w1).
Proof.
  intros Hmk Hemit Hc.
  rewrite (Request_waits e id topic payload scn 0 tie parked ch w w0 w1
             Hmk Hemit).
  assert (Hsel : select_response ch (w_now w1 + 0) tie parked w1 =
    match ch_buf c, tie with
    | response :: rest, CaseResponse =>
        Done (Some (Response response))
          (set_rchans (insert ch (mkChan (ch_cap c) rest)) w1)
    | _, _ => Done (Some After) w1
    end).
  { destruct parked; cbn [select_response]; unfold chan_buffer, chan_take; run;
      rewrite Hc; simpl;
      (rewrite bool_decide_eq_true_2 by lia);
      destruct (ch_buf c) as [|response rest] eqn:Hbuf; try reflexivity;
      destruct tie; simpl; try reflexivity; rewrite Hc; simpl; now rewrite Hbuf. }
  rewrite Hsel. split.
  - intros v w2.
    destruct (ch_buf c) as [|response rest]; [|destruct tie];
      cbn [Request_returns]; intros Hr; try discriminate.
    exists rest. destruct response; congruence.
  - now intros ->.
Qed.

(** C8.  If the emission of the request event fails, [Request] returns
    that error in the world the emission left, whatever the timeout:
    the [select] is not entered and nothing else runs. *)
Theorem Request_emission_error (e : loc) (id topic : string) (payload : value)
  (scn : Scene) (timeout : Z) (tie : request_case) (parked : list (M unit))
  (ch : loc) (err : error) (w w0 w1 : world) :
  make_chan 1 w = Done ch w0 ->
  env_EmitNew e id topic
    (VPayload (Apply (NewPayload payload) [(ResponseChanPayload, VChan ch)]))
    scn w0 = Done (Some err) w1 ->
  Request e id topic payload scn timeout tie parked w =
    Done (Some (None, Some err)) w1.
Proof.
  intros Hmk Hemit. unfold Request.
  rewrite (bind_Done _ _ _ _ _ Hmk). cbv zeta.
  now rewrite (bind_Done _ _ _ _ _ Hemit).
Qed.

(** ** [NewEnvironment] *)

(** C9.  [NewEnvironment] without id parts gives the environment the
    string of a UUID newly drawn from the generator; with id parts it
    gives it the identifier made of the parts.  Either way the
    environment is a new object with a registry that holds no cell and
    no subscription and with the null monitoring, and its finalizer is
    installed. *)
Theorem NewEnvironment_id (idParts : list value) (w : world) :
  exists e w',
    NewEnvironment idParts w = Done e w' /\
    w_envs w !! e = None /\
    w_envs w' !! e =
      Some (mkEnvironment
              (match idParts with
               | [] => UUID_String (w_entropy w)
               | _ :: _ => Identifier idParts
               end)
              newRegistry NullMonitoring) /\
    w_entropy w' =
      match idParts with
      | [] => S (w_entropy w)
      | _ :: _ => w_entropy w
      end /\
    (forall id, HasCell e id w' = Done false w') /\
    r_subscriptions newRegistry = ∅ /\
    w_finalizers w' !! e = Some FinalizerStop.
Proof.
  unfold NewEnvironment, NewUUID, SetFinalizer, env_ID, logger_Infof.
  destruct idParts as [|part parts]; cbn [length Nat.eqb]; run;
    rewrite lookup_insert_eq; simpl; eexists _, _;
    (split; [reflexivity|]); fields;
    rewrite !lookup_insert_eq;
    (split; [apply not_elem_of_dom, is_fresh|]);
    repeat split;
    intros id; unfold HasCell, registry_cells; run;
    rewrite lookup_insert_eq; simpl; now rewrite lookup_empty.
Qed.

(** ** [environment.Stop] *)

(** C10.  [Stop] clears the finalizer before it stops the registry: the
    registry's [stop] runs in a world where the environment has no
    finalizer.  If it returns an error, [Stop] returns that error; the
    finalizer is gone all the same, and a teardown does not stop the
    environment again. *)
Theorem env_Stop_clears_finalizer_first (e : loc) (r : option error)
  (w w1 : world) :
  registry_stop e (set_finalizers (delete e) w) = Done r w1 ->
  w_finalizers w1 !! e = w_finalizers (set_finalizers (delete e) w) !! e ->
  w_finalizers (set_finalizers (delete e) w) !! e = None /\
  match r with
  | Some err =>
      env_Stop e w = Done (Some err) w1 /\
      w_finalizers w1 !! e = None /\
      run_finalizer e w1 = Done tt w1
  | None =>
      forall en, w_envs w1 !! e = Some en ->
        exists w2,
          env_Stop e w = Done None w2 /\
          w_finalizers w2 !! e = None /\
          run_finalizer e w2 = Done tt w2
  end.
Proof.
  intros Hstop Hframe.
  assert (Hcleared : w_finalizers (set_finalizers (delete e) w) !! e = None).
  { fields. apply lookup_delete_eq. }
  split; [exact Hcleared|].
  rewrite Hcleared in Hframe.
  assert (Hclear : SetFinalizer e None w = Done tt (set_finalizers (delete e) w))
    by reflexivity.
  assert (Hteardown : forall w', w_finalizers w' !! e = None ->
                                 run_finalizer e w' = Done tt w').
  { intros w' Hnone. unfold run_finalizer, get_world, mbind, M_bind.
    now rewrite Hnone. }
  unfold env_Stop.
  rewrite (bind_Done _ _ _ _ _ Hclear), (bind_Done _ _ _ _ _ Hstop).
  destruct r as [err|].
  - split; [reflexivity|]. split; [exact Hframe|]. now apply Hteardown.
  - intros en Hen.
    assert (Hid : env_ID e w1 = Done (env_id en) w1).
    { unfold env_ID, read_env, get_world, deref, mbind, M_bind. now rewrite Hen. }
    rewrite (bind_Done _ _ _ _ _ Hid).
    unfold logger_Infof, modify, mbind, M_bind.
    eexists. split; [reflexivity|]. fields. split; [exact Hframe|].
    now apply Hteardown.
Qed.

End Properties.

(** * Further properties of the two files *)

(** Take apart every [match] of the goal and of the hypothesis that
    carries a run, dropping the cases that contradict it. *)
Ltac step_run Hrun :=
  repeat match type of Hrun with
         | context [match ?x with _ => _ end] =>
             let E := fresh "E" in destruct x eqn:E; try discriminate Hrun
         end.

(** ** Calls that keep the monitoring variables *)

Lemma keeps_vars_bind {A B : Type} (m : M A) (f : A -> M B) :
  keeps_vars m -> (forall a, keeps_vars (f a)) -> keeps_vars (m ≫= f).
Proof.
  intros Hm Hf w. unfold mbind, M_bind. specialize (Hm w).
  destruct (m w) as [a w1|r w1]; simpl in Hm.
  - now rewrite Hf.
  - exact Hm.
Qed.

Lemma keeps_vars_ret {A : Type} (a : A) : keeps_vars (mret a).
Proof. intros w. reflexivity. Qed.

Lemma keeps_vars_get : keeps_vars get_world.
Proof. intros w. reflexivity. Qed.

Lemma keeps_vars_panic {A : Type} (r : value) : keeps_vars (@panic A r).
Proof. intros w. reflexivity. Qed.

Lemma keeps_vars_deref {A : Type} (p : option A) : keeps_vars (deref p).
Proof. destruct p; intros w; reflexivity. Qed.

Lemma keeps_vars_modify (f : world -> world) :
  (forall w, w_vars (f w) = w_vars w) -> keeps_vars (modify f).
Proof. intros Hf w. apply Hf. Qed.

(** Prove that a computation built from the primitives keeps the
    monitoring variables, using the hypotheses on the collaborators. *)
Ltac keeps :=
  repeat first
    [ assumption
    | apply keeps_vars_ret
    | apply keeps_vars_get
    | apply keeps_vars_panic
    | apply keeps_vars_deref
    | apply keeps_vars_modify; intros ?; reflexivity
    | apply keeps_vars_bind; [|intros ?]
    | match goal with
      | |- keeps_vars (match ?x with _ => _ end) => destruct x
      | H : context [keeps_vars] |- keeps_vars _ => apply H
      end ].

Section Further.
Context `{Collaborators}.

(** ** What [checkRecovering] returns *)

Lemma last_drop_lt {A : Type} (n : nat) (l : list A) :
  (n < length l)%nat -> last (drop n l) = last l.
Proof.
  intros Hn. rewrite !last_lookup, lookup_drop, length_drop.
  f_equal. lia.
Qed.

Lemma Trim_keeps_last (l : nat) (rs : Recoverings) :
  (0 < l)%nat -> Last (Trim l rs) = Last rs.
Proof.
  intros Hl. unfold Last, Trim. destruct rs as [|r rs]; [reflexivity|].
  apply last_drop_lt. simpl. lia.
Qed.

(** X1.  Whenever [checkRecovering] returns, the result is one of
    three: the error [RecoveredTooOften] with no history, when 12
    recoverings lie within the last minute; an [EventRecovering] error
    that wraps the error of [Recover], with no history; or no error and
    the 12 most recent entries of the history, which still end with the
    last recovering. *)
Theorem checkRecovering_results (c : loc) (rs rs' : Recoverings)
  (err : option error) (w w' : world) :
  checkRecovering c rs w = Done (rs', err) w' ->
  match err with
  | Some e =>
      rs' = [] /\
      ((error_code e = Some ErrRecoveredTooOften /\
        (12 <= length (within_last time_Minute rs))%nat) \/
       (error_code e = Some ErrEventRecovering /\
        is_Some (error_cause e) /\
        (length (within_last time_Minute rs) < 12)%nat))
  | None =>
      rs' = Trim 12 rs /\
      (length rs' <= 12)%nat /\
      Last rs' = Last rs /\
      (exists older, rs = older ++ rs') /\
      (length (within_last time_Minute rs) < 12)%nat
  end.
Proof.
  intros Hrun. unfold checkRecovering, logger_Errorf in Hrun. run.
  destruct (w_cells w !! c) as [cl|]; simpl in Hrun; [|discriminate].
  destruct (Last rs) as [last|] eqn:Hlast; simpl in Hrun; [|discriminate].
  unfold Frequency in Hrun.
  destruct (bool_decide (12 <= length (within_last time_Minute rs))%nat) eqn:Hf.
  - apply bool_decide_eq_true in Hf.
    injection Hrun as <- <- <-. split; [reflexivity|]. left. now split.
  - apply bool_decide_eq_false in Hf.
    destruct (Recover (behaviors (c_behavior cl)) (Reason last) _)
      as [[e|] w1|r w1]; [| |discriminate].
    + injection Hrun as <- <- <-. split; [reflexivity|]. right.
      repeat split; [eexists; reflexivity|lia].
    + injection Hrun as <- <- <-. split; [reflexivity|].
      split; [rewrite Trim_length; lia|].
      split; [rewrite <- Hlast; apply Trim_keeps_last; lia|].
      split; [eexists; apply Trim_most_recent|lia].
Qed.

(** ** How the backend loop ends *)

Lemma backendLoop_select_returns (c : loc) (pick : select_case)
  (r : option error) (w w' : world) :
  backendLoop_select c pick w = Done (Return r) w' ->
  exists cl l events w1,
    w_cells w !! c = Some cl /\
    c_loop cl = Some l /\
    ShallStop l w = Done true w /\
    Events (queues (c_queue cl)) w = Done events w1 /\
    Terminate (behaviors (c_behavior cl)) w1 = Done r w'.
Proof.
  intros Hrun.
  unfold backendLoop_select, ShallStop, schan_recv, echan_recv, BeginMeasuring,
    EndMeasuring, Kill in Hrun.
  unfold read_cell, read_loop, now, get_world, deref, modify, panic,
    mbind, M_bind, mret, M_ret in Hrun.
  destruct (w_cells w !! c) as [cl|] eqn:Hc; [|discriminate].
  destruct (c_loop cl) as [l|] eqn:Hl; [|discriminate].
  destruct (w_loops w !! l) as [ls|] eqn:Hls; [|discriminate].
  destruct (Events (queues (c_queue cl)) w) as [events w1|] eqn:Hev;
    [|discriminate].
  exists cl, l, events, w1.
  destruct pick.
  - destruct (l_status ls) eqn:Hst; try discriminate;
      (destruct (Terminate (behaviors (c_behavior cl)) w1) as [r1 w2|] eqn:Ht;
       [|discriminate]);
      injection Hrun as <- <-;
      unfold ShallStop, read_loop, get_world, deref, mbind, M_bind, mret, M_ret;
      rewrite Hls, Hst; now repeat split.
  - step_run Hrun.
  - step_run Hrun.
Qed.

(** X11.  The backend loop returns only through its stop case: if the
    [for] returns under some schedule, the stop signal of the cell's
    loop was raised at the [select] it left through, and what it
    returns is what [Terminate] of the behavior returned there. *)
Theorem backendLoop_returns_through_Terminate (c : loc)
  (sched : list select_case) (r : option error) (w w' : world) :
  backendLoop_for c sched w = Done (Return r) w' ->
  exists w0 cl l events w1,
    w_cells w0 !! c = Some cl /\
    c_loop cl = Some l /\
    ShallStop l w0 = Done true w0 /\
    Events (queues (c_queue cl)) w0 = Done events w1 /\
    Terminate (behaviors (c_behavior cl)) w1 = Done r w'.
Proof.
  revert w. induction sched as [|pick sched IH]; intros w Hrun.
  - discriminate.
  - cbn [backendLoop_for] in Hrun. unfold mbind at 1, M_bind at 1 in Hrun.
    destruct (backendLoop_select c pick w) as [[|r1|] w2|] eqn:Hsel;
      try discriminate.
    + now apply (IH w2).
    + injection Hrun as <- <-. exists w.
      now apply backendLoop_select_returns with (pick := pick).
Qed.

(** ** [cell.cleanup] *)

(** X3.  [cleanup] stops the queue of the cell and does not pass on an
    error of that: the error is logged and the log line of the cell's
    termination follows in either case. *)
Theorem cleanup_swallows_stop_error (c : loc) (cl : cell) (r : option error)
  (w w1 : world) :
  w_cells w !! c = Some cl ->
  Stop (queues (c_queue cl)) w = Done r w1 ->
  cleanup c w =
    Done tt
      (set_log (fun lines =>
         (lines ++
            match r with
            | Some e => [mkLog LError "cannot stop queue of cell %q: %v"
                           [VString (c_id cl); VError e]]
            | None => []
            end) ++
         [mkLog LInfo "cell %q terminated" [VString (c_id cl)]]) w1).
Proof.
  intros Hc Hstop. unfold cleanup.
  assert (Hread : read_cell c w = Done cl w).
  { unfold read_cell, get_world, deref, mbind, M_bind. now rewrite Hc. }
  rewrite (bind_Done _ _ _ _ _ Hread), (bind_Done _ _ _ _ _ Hstop).
  destruct r as [e|]; unfold logger_Errorf, logger_Infof, modify, mbind, M_bind,
    mret, M_ret; unfold set_log; simpl; [reflexivity|].
  now rewrite app_nil_r.
Qed.

(** ** Subscriber updates *)

Lemma schan_await_cons (ch : loc) (ticket : nat) (others : M unit)
  (rest : list (M unit)) (s : schan) (w : world) :
  w_schans w !! ch = Some s ->
  (sc_received s <= ticket)%nat ->
  schan_await ch ticket (others :: rest) w =
    schan_await ch ticket rest (after (others w)).
Proof.
  intros Hs Hle. cbn [schan_await].
  unfold get_world, deref, mbind, M_bind, mret, M_ret. rewrite Hs.
  now rewrite bool_decide_eq_false_2 by lia.
Qed.

Lemma schan_await_taken (ch : loc) (ticket : nat) (meanwhile : list (M unit))
  (s : schan) (w : world) :
  w_schans w !! ch = Some s ->
  (ticket < sc_received s)%nat ->
  schan_await ch ticket meanwhile w = Done (Some tt) w.
Proof.
  intros Hs Hlt. destruct meanwhile; cbn [schan_await];
    unfold get_world, deref, mbind, M_bind, mret, M_ret; rewrite Hs;
    now rewrite bool_decide_eq_true_2 by lia.
Qed.

Lemma schan_await_blocked (ch : loc) (ticket : nat) (meanwhile : list (M unit))
  (s : schan) (w : world) :
  w_schans w !! ch = Some s ->
  (sc_received s <= ticket)%nat ->
  Forall (fun others : M unit => forall w0,
            w_schans (after (others w0)) !! ch = w_schans w0 !! ch) meanwhile ->
  exists w', schan_await ch ticket meanwhile w = Done None w' /\
             w_schans w' !! ch = Some s.
Proof.
  intros Hs Hle Hall. revert w Hs.
  induction Hall as [|others meanwhile Hothers _ IH]; intros w Hs;
    cbn [schan_await];
    unfold get_world, deref, mbind, M_bind, mret, M_ret; rewrite Hs;
    (rewrite bool_decide_eq_false_2 by lia).
  - now exists w.
  - unfold concurrently. apply IH. now rewrite Hothers.
Qed.

Lemma schan_await_returned (ch : loc) (ticket : nat) (meanwhile : list (M unit))
  (w w' : world) :
  schan_await ch ticket meanwhile w = Done (Some tt) w' ->
  exists s, w_schans w' !! ch = Some s /\ (ticket < sc_received s)%nat.
Proof.
  revert w. induction meanwhile as [|others meanwhile IH]; intros w;
    cbn [schan_await];
    unfold get_world, deref, panic, mbind, M_bind, mret, M_ret;
    destruct (w_schans w !! ch) as [s|] eqn:Hs; try (intros Hr; discriminate Hr);
    destruct (bool_decide (ticket < sc_received s)%nat) eqn:Hd;
    try (intros Hr; discriminate Hr);
    try (intros Hr; injection Hr as <-; exists s; split; [exact Hs|];
         now apply bool_decide_eq_true in Hd).
  unfold concurrently. apply IH.
Qed.

(** X4.  [updateSubscribers] is a rendezvous with the backend loop.
    While nothing receives from the channel of the cell, the caller
    stays blocked with its list on offer; when the call has returned,
    the list has been received, after those of the senders that waited
    before it.  When the loop is alive and its [select] takes the
    subscribers case while the caller is the only sender, the call
    returns: the list is then the cell's subscribers, the other fields
    are as before, and an [Emit] ranges over the new list. *)
Theorem updateSubscribers_takes_effect (c : loc) (cl : cell) (l : loc)
  (ls : loop_state) (s : schan) (cells : list loc) (events : loc)
  (event : Event) (w : world) :
  w_cells w !! c = Some cl ->
  c_loop cl = Some l ->
  w_loops w !! l = Some ls ->
  w_schans w !! c_subscriberc cl = Some s ->
  let offered := mkSchan (sc_offers s ++ [cells]) (sc_received s) in
  let w1 := set_schans (insert (c_subscriberc cl) offered) w in
  (forall meanwhile,
      Forall (fun others : M unit => forall w0,
                w_schans (after (others w0)) !! c_subscriberc cl =
                  w_schans w0 !! c_subscriberc cl) meanwhile ->
      exists w',
        updateSubscribers c cells meanwhile w = Done None w' /\
        w_schans w' !! c_subscriberc cl = Some offered) /\
  (forall meanwhile w',
      updateSubscribers c cells meanwhile w = Done (Some tt) w' ->
      exists s',
        w_schans w' !! c_subscriberc cl = Some s' /\
        (sc_received s + length (sc_offers s) < sc_received s')%nat) /\
  (sc_offers s = [] ->
   l_status ls <> Stopped ->
   Events (queues (c_queue cl)) w1 = Done events w1 ->
   forall rest,
   exists w2,
     backendLoop_select c CaseSubscribers w1 = Done Continue w2 /\
     updateSubscribers c cells
       ((backendLoop_select c CaseSubscribers;; mret tt) :: rest) w =
       Done (Some tt) w2 /\
     w_cells w2 !! c =
       Some (mkCell (c_env cl) (c_id cl) (c_behavior cl) cells (c_queue cl)
               (c_subscriberc cl) (c_loop cl) (c_measuringID cl)) /\
     w_schans w2 !! c_subscriberc cl = Some (mkSchan [] (S (sc_received s))) /\
     Emit c event w2 = Emit_range cells event w2).
Proof.
  intros Hc Hl Hls Hch offered w1.
  assert (Hupd : forall meanwhile,
    updateSubscribers c cells meanwhile w =
      schan_await (c_subscriberc cl) (sc_received s + length (sc_offers s))
        meanwhile w1).
  { intros meanwhile.
    unfold updateSubscribers, schan_send, schan_offer, read_cell, get_world,
      deref, modify, mbind, M_bind, mret, M_ret.
    rewrite Hc. cbv beta iota. now rewrite Hch. }
  assert (Hoffered : w_schans w1 !! c_subscriberc cl = Some offered).
  { subst w1. fields. apply lookup_insert_eq. }
  split; [|split].
  - intros meanwhile Hall. rewrite Hupd.
    apply schan_await_blocked; [exact Hoffered| |exact Hall].
    subst offered. cbn [sc_received]. lia.
  - intros meanwhile w' Hret. rewrite Hupd in Hret.
    now apply schan_await_returned with (meanwhile := meanwhile) (w := w1).
  - intros Halone _ Hev rest.
    assert (Hsel : backendLoop_select c CaseSubscribers w1 =
      Done Continue
        (set_cells (insert c
           (mkCell (c_env cl) (c_id cl) (c_behavior cl) cells (c_queue cl)
              (c_subscriberc cl) (c_loop cl) (c_measuringID cl)))
           (set_schans (insert (c_subscriberc cl)
                          (mkSchan [] (S (sc_received s)))) w1))).
    { unfold backendLoop_select, ShallStop, schan_recv, read_cell, read_loop,
        get_world, deref, modify, mbind, M_bind, mret, M_ret.
      revert Hev Hoffered. subst w1 offered. rewrite Halone. cbn [app].
      intros Hev Hoffered. fields.
      rewrite Hc. cbv beta iota. rewrite Hl. cbv beta iota. fields.
      rewrite Hls. cbv beta iota. rewrite Hev. fields.
      rewrite lookup_insert_eq. reflexivity. }
    eexists. split; [exact Hsel|].
    split.
    { rewrite Hupd.
      rewrite (schan_await_cons _ _ _ _ offered w1 Hoffered)
        by (subst offered; cbn [sc_received]; lia).
      rewrite (bind_Done _ _ _ _ _ Hsel). cbn [after mret M_ret].
      apply schan_await_taken with (s := mkSchan [] (S (sc_received s))).
      - fields. apply lookup_insert_eq.
      - cbn [sc_received]. rewrite Halone. cbn [length]. lia. }
    split. { fields. apply lookup_insert_eq. }
    split. { fields. apply lookup_insert_eq. }
    apply (Emit_reads_subscribers c
             (mkCell (c_env cl) (c_id cl) (c_behavior cl) cells (c_queue cl)
                (c_subscriberc cl) (c_loop cl) (c_measuringID cl)) event).
    fields. apply lookup_insert_eq.
Qed.

(** ** [newCell] *)

(** X5.  [newCell] returns either a cell and no error, or no cell and
    an error, never both and never neither, whatever runs beside it.
    The error is the [CellInit] annotation, with the id of the cell, of
    the error the queue factory returned or of the error [Init]
    returned.  A cell is returned only after [Init] returned nil for
    it; the cell did not exist when the queue had been made, and the
    log has the line that says it started. *)
Theorem newCell_results (env : loc) (id : string) (behavior : loc)
  (early late : loc -> M unit) (made : option loc) (err : option error)
  (w w' : world) :
  newCell env id behavior early late w = Done (made, err) w' ->
  match made, err with
  | Some c, None =>
      exists queue w1 w2 w3,
        queueFactory env w = Done (inl queue) w1 /\
        w_cells w1 !! c = None /\
        Init (behaviors behavior) c w2 = Done None w3 /\
        mkLog LInfo "cell %q started" [VString id] ∈ w_log w'
  | None, Some e =>
      exists cause,
        e = errors_Annotate cause ErrCellInit [VString id] /\
        (queueFactory env w = Done (inr cause) w' \/
         exists queue w1 c w2,
           queueFactory env w = Done (inl queue) w1 /\
           w_cells w1 !! c = None /\
           Init (behaviors behavior) c w2 = Done (Some cause) w')
  | _, _ => False
  end.
Proof.
  intros Hrun. unfold newCell in Hrun.
  unfold mbind at 1, M_bind at 1 in Hrun.
  destruct (queueFactory env w) as [[queue|e] w1|] eqn:Hq; [| |discriminate].
  - unfold read_env, make_schan, GoRecoverable, concurrently, read_cell,
      logger_Infof, get_world, deref, modify, panic, mbind, M_bind, mret,
      M_ret in Hrun.
    destruct (w_envs w1 !! env) as [en|]; [|discriminate].
    cbv beta iota zeta in Hrun. fields.
    step_run Hrun; injection Hrun as <- <- <-.
    + exists e. split; [reflexivity|]. right.
      eexists queue, w1, _, _. split; [reflexivity|].
      split; [apply not_elem_of_dom, is_fresh|eassumption].
    + eexists queue, w1, _, _. split; [reflexivity|].
      split; [apply not_elem_of_dom, is_fresh|].
      split; [eassumption|]. fields. set_solver.
  - injection Hrun as <- <- <-. exists e. split; [reflexivity|now left].
Qed.

(** ** The worker before its loop is assigned *)

(** X13.  A worker that is scheduled before [newCell] has assigned
    [c.loop] finds the loop nil at its first [select] and panics with a
    nil dereference.  Its deferred calls run: [cleanup] stops the queue
    of the cell and logs the termination, and both counters are taken
    back. *)
Theorem backendLoop_before_loop_assigned (c : loc) (cl : cell)
  (en : environment) (pick : select_case) (sched : list select_case)
  (r : option error) (w w1 : world) :
  w_cells w !! c = Some cl ->
  c_loop cl = None ->
  w_envs w !! c_env cl = Some en ->
  let a := c_measuringID cl in
  let b := Identifier [VString "cells"; VString (env_id en);
                       VString "total-cells"] in
  Stop (queues (c_queue cl))
    (set_vars (fun vs => <[b := default 0 (vs !! b) + 1]> vs)
       (set_vars (fun vs => <[a := default 0 (vs !! a) + 1]> vs) w)) =
    Done r w1 ->
  backendLoop c (pick :: sched) w =
    Panicked nil_dereference
      (set_vars (fun vs => <[b := default 0 (vs !! b) - 1]> vs)
         (set_vars (fun vs => <[a := default 0 (vs !! a) - 1]> vs)
            (set_log (fun lines =>
               (lines ++
                  match r with
                  | Some e => [mkLog LError "cannot stop queue of cell %q: %v"
                                 [VString (c_id cl); VError e]]
                  | None => []
                  end) ++
               [mkLog LInfo "cell %q terminated" [VString (c_id cl)]]) w1))).
Proof.
  intros Hc Hl Hen a b Hstop.
  set (w0 := set_vars (fun vs => <[b := default 0 (vs !! b) + 1]> vs)
               (set_vars (fun vs => <[a := default 0 (vs !! a) + 1]> vs) w))
    in *.
  assert (Hunfold : backendLoop c (pick :: sched) w =
    with_deferred [cleanup c; DecrVariable a; DecrVariable b]
      (backendLoop_for c (pick :: sched)) w0).
  { unfold backendLoop, env_ID, IncrVariable, read_cell, read_env, get_world,
      deref, modify, mbind, M_bind, mret, M_ret.
    rewrite Hc. cbv beta iota. fields. rewrite Hen. cbv beta iota. fields.
    rewrite Hen. reflexivity. }
  assert (Hc0 : w_cells w0 !! c = Some cl) by exact Hc.
  assert (Hfor : backendLoop_for c (pick :: sched) w0 =
                   Panicked nil_dereference w0).
  { cbn [backendLoop_for]. unfold backendLoop_select, read_cell, get_world,
      deref, panic, mbind, M_bind, mret, M_ret.
    rewrite Hc0. cbv beta iota. now rewrite Hl. }
  assert (Hclean : cleanup c w0 =
    Done tt
      (set_log (fun lines =>
         (lines ++
            match r with
            | Some e => [mkLog LError "cannot stop queue of cell %q: %v"
                           [VString (c_id cl); VError e]]
            | None => []
            end) ++
         [mkLog LInfo "cell %q terminated" [VString (c_id cl)]]) w1)).
  { unfold cleanup.
    assert (Hread : read_cell c w0 = Done cl w0).
    { unfold read_cell, get_world, deref, mbind, M_bind. now rewrite Hc0. }
    rewrite (bind_Done _ _ _ _ _ Hread), (bind_Done _ _ _ _ _ Hstop).
    destruct r as [e|]; unfold logger_Errorf, logger_Infof, modify, mbind,
      M_bind, mret, M_ret; unfold set_log; simpl; [reflexivity|].
    now rewrite app_nil_r. }
  rewrite Hunfold. unfold with_deferred. rewrite Hfor.
  cbn [run_deferred]. rewrite Hclean. reflexivity.
Qed.

(** ** The environment *)

(** X7.  [HasCell] and [Emit] of the environment agree: for an id the
    registry knows, [HasCell] is true and [Emit] is [processEvent] of
    the registered cell; for any other id [HasCell] is false and [Emit]
    returns [CellNotFound]; in both cases the lookup changes nothing. *)
Theorem HasCell_Emit (e : loc) (en : environment) (id : string) (event : Event)
  (w : world) :
  w_envs w !! e = Some en ->
  match r_cells (env_cells en) !! id with
  | Some c =>
      HasCell e id w = Done true w /\
      env_Emit e id event w = processEvent c event w
  | None =>
      HasCell e id w = Done false w /\
      env_Emit e id event w =
        Done (Some (errors_New ErrCellNotFound [VString id])) w
  end.
Proof.
  intros Hen. unfold HasCell, env_Emit, registry_cells. run. rewrite Hen. simpl.
  destruct (r_cells (env_cells en) !! id); now split.
Qed.

(** X8.  [SetMonitoring] then [monitoring] gives back the sink that was
    set.  The id of the environment, its cells and every other
    environment are as before. *)
Theorem SetMonitoring_monitoring (e : loc) (en : environment) (m : Monitoring)
  (w : world) :
  w_envs w !! e = Some en ->
  exists w',
    SetMonitoring e m w = Done tt w' /\
    monitoring e w' = Done m w' /\
    env_ID e w' = Done (env_id en) w' /\
    (forall id b, HasCell e id w = Done b w -> HasCell e id w' = Done b w') /\
    (forall e0, e0 <> e -> w_envs w' !! e0 = w_envs w !! e0) /\
    w_cells w' = w_cells w /\ w_finalizers w' = w_finalizers w.
Proof.
  intros Hen. unfold SetMonitoring, monitoring, env_ID, HasCell, registry_cells.
  run. rewrite Hen. simpl. eexists. split; [reflexivity|].
  simpl. rewrite !lookup_insert_eq. simpl.
  repeat split.
  - intros id b. destruct (r_cells (env_cells en) !! id); cbv beta iota;
      intros Hb; congruence.
  - intros e0 He0. now rewrite lookup_insert_ne by congruence.
Qed.

(** X10.  [NewEnvironment] always returns, and the environment it makes
    is none of those that exist: each of them keeps its record and its
    finalizer, and cells and loops are untouched. *)
Theorem NewEnvironment_keeps_others (idParts : list value) (e0 : loc)
  (en0 : environment) (w : world) :
  w_envs w !! e0 = Some en0 ->
  exists e w',
    NewEnvironment idParts w = Done e w' /\
    e <> e0 /\
    w_envs w' !! e0 = Some en0 /\
    w_finalizers w' !! e0 = w_finalizers w !! e0 /\
    w_cells w' = w_cells w /\ w_loops w' = w_loops w.
Proof.
  intros Hen0.
  assert (Hfresh : fresh (dom (w_envs w)) <> e0).
  { intros Heq. pose proof (is_fresh (dom (w_envs w))) as Hnot.
    apply Hnot. rewrite Heq. apply elem_of_dom. rewrite Hen0. eauto. }
  unfold NewEnvironment, NewUUID, SetFinalizer, env_ID, logger_Infof.
  destruct idParts as [|part parts]; cbn [length Nat.eqb]; run;
    rewrite lookup_insert_eq; simpl; eexists _, _;
    (split; [reflexivity|]); fields;
    (split; [exact Hfresh|]);
    rewrite !lookup_insert_ne by exact Hfresh; now repeat split.
Qed.

(** ** [environment.Request] *)

(** X9.  If the response is already in the channel when the [select]
    of [Request] is entered, [Request] does not wait, whatever the
    timeout and whatever else is scheduled: it returns that response,
    as a value or as an error, or the [Timeout] error.  It returns the
    response whenever Go's choice between the two cases is the response
    case, and the [Timeout] error when the timer is due as well and Go
    chooses the timer. *)
Theorem Request_response_ready (e : loc) (id topic : string) (payload : value)
  (scn : Scene) (timeout : Z) (tie : request_case) (parked : list (M unit))
  (ch : loc) (c : chan) (response : value) (rest : list value)
  (w w0 w1 : world) :
  make_chan 1 w = Done ch w0 ->
  env_EmitNew e id topic
    (VPayload (Apply (NewPayload payload) [(ResponseChanPayload, VChan ch)]))
    scn w0 = Done None w1 ->
  w_rchans w1 !! ch = Some c ->
  ch_buf c = response :: rest ->
  let answer :=
    Done (Some (match response with
                | VError err => (None, Some err)
                | _ => (Some response, None)
                end))
         (set_rchans (insert ch (mkChan (ch_cap c) rest)) w1) in
  let timed_out :=
    Done (Some (None, Some (errors_New ErrTimeout
            [VString (Sprintf "requesting %q from %q"
                        [VString topic; VString id])]))) w1 in
  (Request e id topic payload scn timeout tie parked w = answer \/
   Request e id topic payload scn timeout tie parked w = timed_out) /\
  (tie = CaseResponse ->
   Request e id topic payload scn timeout tie parked w = answer) /\
  (tie = CaseAfter ->
   w_now w1 + timeout <= w_now w1 ->
   Request e id topic payload scn timeout tie parked w = timed_out).
Proof.
  intros Hmk Hemit Hc Hbuf answer timed_out.
  rewrite (Request_waits e id topic payload scn timeout tie parked ch w w0 w1
             Hmk Hemit).
  assert (Hsel : select_response ch (w_now w1 + timeout) tie parked w1 =
    match tie, bool_decide (w_now w1 + timeout <= w_now w1) with
    | CaseAfter, true => Done (Some After) w1
    | _, _ => Done (Some (Response response))
                (set_rchans (insert ch (mkChan (ch_cap c) rest)) w1)
    end).
  { destruct parked; cbn [select_response]; unfold chan_buffer, chan_take; run;
      rewrite Hc; simpl; rewrite Hbuf;
      destruct (bool_decide (w_now w1 + timeout <= w_now w1));
      destruct tie; simpl; try reflexivity; rewrite Hc; simpl;
      now rewrite Hbuf. }
  rewrite Hsel. split; [|split].
  - destruct tie; [now left|].
    destruct (bool_decide (w_now w1 + timeout <= w_now w1)); [now right|now left].
  - now intros ->.
  - intros -> Hd. now rewrite bool_decide_eq_true_2 by exact Hd.
Qed.

(** ** The counters of the backend loop *)

Lemma keeps_vars_select (c : loc) (pick : select_case) :
  (forall q, keeps_vars (Events (queues q))) ->
  (forall b event, keeps_vars (ProcessEvent (behaviors b) event)) ->
  (forall b, keeps_vars (Terminate (behaviors b))) ->
  keeps_vars (backendLoop_select c pick).
Proof.
  intros Hev Hpe Hte.
  unfold backendLoop_select, ShallStop, schan_recv, echan_recv, BeginMeasuring,
    EndMeasuring, Kill, read_cell, read_loop, now.
  keeps.
Qed.

Lemma keeps_vars_for (c : loc) (sched : list select_case) :
  (forall q, keeps_vars (Events (queues q))) ->
  (forall b event, keeps_vars (ProcessEvent (behaviors b) event)) ->
  (forall b, keeps_vars (Terminate (behaviors b))) ->
  keeps_vars (backendLoop_for c sched).
Proof.
  intros Hev Hpe Hte. induction sched as [|pick sched IH]; cbn [backendLoop_for].
  - apply keeps_vars_ret.
  - apply keeps_vars_bind; [now apply keeps_vars_select|].
    intros [|r|]; [exact IH|apply keeps_vars_ret|apply keeps_vars_ret].
Qed.

Lemma keeps_vars_cleanup (c : loc) :
  (forall q, keeps_vars (Stop (queues q))) ->
  keeps_vars (cleanup c).
Proof.
  intros Hst. unfold cleanup, logger_Errorf, logger_Infof, read_cell. keeps.
Qed.

Lemma counter_insert (v k : string) (d : Z) (vs : gmap string Z) :
  default 0 (<[v := default 0 (vs !! v) + d]> vs !! k) =
    default 0 (vs !! k) + (if decide (k = v) then d else 0).
Proof.
  destruct (decide (k = v)) as [->|Hne].
  - now rewrite lookup_insert_eq.
  - rewrite lookup_insert_ne by congruence. lia.
Qed.

(** The deferred calls of the backend loop take both counters down by
    one, whether or not [cleanup] panics. *)
Lemma deferred_counters (c : loc) (a b k : string) (p : option value) (w : world) :
  (forall q, keeps_vars (Stop (queues q))) ->
  counter k (run_deferred [cleanup c; DecrVariable a; DecrVariable b] p w).2 =
    counter k w - (if decide (k = a) then 1 else 0)
                - (if decide (k = b) then 1 else 0).
Proof.
  intros Hst. pose proof (keeps_vars_cleanup c Hst w) as Hcl.
  cbn [run_deferred].
  assert (Hdecr : forall p' w1, w_vars w1 = w_vars w ->
    counter k (run_deferred [DecrVariable a; DecrVariable b] p' w1).2 =
      counter k w - (if decide (k = a) then 1 else 0)
                  - (if decide (k = b) then 1 else 0)).
  { intros p' w1 Hw1. cbn. unfold counter. fields.
    replace (default 0 (<[a:=default 0 (w_vars w1 !! a) - 1]> (w_vars w1) !! b) - 1)
      with (default 0 (<[a:=default 0 (w_vars w1 !! a) + -1]> (w_vars w1) !! b) + -1)
      by (f_equal).
    replace (default 0 (w_vars w1 !! a) - 1)
      with (default 0 (w_vars w1 !! a) + -1) by lia.
    rewrite !counter_insert, Hw1. repeat case_decide; lia. }
  destruct (cleanup c w) as [[] w1|r w1]; simpl in Hcl; now apply Hdecr.
Qed.

(** X2.  If the queue and the behavior leave the monitoring variables
    alone, the backend loop accounts for itself: while it runs, the
    counter of its behavior type and the counter of all cells of the
    environment are each one higher than before; once it has returned
    or panicked, every variable has the value it had before. *)
Theorem backendLoop_counters_balance (c : loc) (cl : cell) (en : environment)
  (sched : list select_case) (k : string) (w : world) :
  (forall q, keeps_vars (Events (queues q))) ->
  (forall q, keeps_vars (Stop (queues q))) ->
  (forall b event, keeps_vars (ProcessEvent (behaviors b) event)) ->
  (forall b, keeps_vars (Terminate (behaviors b))) ->
  w_cells w !! c = Some cl ->
  w_envs w !! c_env cl = Some en ->
  match backendLoop c sched w with
  | Done (Return _) w' | Panicked _ w' => counter k w' = counter k w
  | Done _ w' =>
      counter k w' =
        counter k w
        + (if decide (k = c_measuringID cl) then 1 else 0)
        + (if decide
                (k = Identifier [VString "cells"; VString (env_id en);
                                 VString "total-cells"])
           then 1 else 0)
  end.
Proof.
  intros Hev Hst Hpe Hte Hc Hen.
  set (a := c_measuringID cl).
  set (b := Identifier [VString "cells"; VString (env_id en);
                        VString "total-cells"]).
  set (w0 := set_vars (fun vs => <[b := default 0 (vs !! b) + 1]> vs)
               (set_vars (fun vs => <[a := default 0 (vs !! a) + 1]> vs) w)).
  assert (Hunfold : backendLoop c sched w =
    with_deferred [cleanup c; DecrVariable a; DecrVariable b]
      (backendLoop_for c sched) w0).
  { unfold backendLoop, env_ID, IncrVariable, read_cell, read_env, get_world,
      deref, modify, mbind, M_bind, mret, M_ret.
    rewrite Hc. cbv beta iota. fields. rewrite Hen. cbv beta iota. fields.
    rewrite Hen. reflexivity. }
  assert (Hw0 : counter k w0 =
    counter k w + (if decide (k = a) then 1 else 0)
                + (if decide (k = b) then 1 else 0)).
  { unfold counter, w0. fields. now rewrite !counter_insert. }
  pose proof (keeps_vars_for c sched Hev Hpe Hte w0) as Hfor.
  rewrite Hunfold. unfold with_deferred.
  destruct (backendLoop_for c sched w0) as [[|r|] w1|r w1]; cbn [after] in Hfor;
    (assert (Hw1 : counter k w1 = counter k w0)
       by (unfold counter; now rewrite Hfor)).
  - now rewrite Hw1.
  - pose proof (deferred_counters c a b k None w1 Hst) as Hdef.
    destruct (run_deferred [cleanup c; DecrVariable a; DecrVariable b] None w1)
      as [[p|] w2]; cbn [snd] in Hdef; rewrite Hdef, Hw1, Hw0; lia.
  - now rewrite Hw1.
  - pose proof (deferred_counters c a b k (Some r) w1 Hst) as Hdef.
    destruct (run_deferred [cleanup c; DecrVariable a; DecrVariable b]
                (Some r) w1)
      as [[p|] w2]; cbn [snd] in Hdef; rewrite Hdef, Hw1, Hw0; lia.
Qed.

End Further.

(** * Runs on the concrete runtime *)

#[local] Existing Instance Demo.collaborators.

(** "a" emits to "b", "c" and "d": "b" takes the event, the stopped
    mailbox of "c" refuses it, and "d" is not called. *)
Lemma Emit_forwards_until_first_failure_witness :
  Emit 0%nat (Demo.ev "ping") Demo.start =
    Done (Some (errors_New ErrQueueStopped []))
         (set_echans (insert 1%nat [Demo.ev "ping"]) Demo.start) /\
  w_echans (after (Emit 0%nat (Demo.ev "ping") Demo.start)) !! 3%nat = Some [].
Proof.
  destruct (Emit_forwards_until_first_failure 0%nat Demo.cell_a (Demo.ev "ping")
              Demo.start eq_refl) as [Hfail _].
  rewrite (Hfail [1%nat] 2%nat [3%nat]
             (set_echans (insert 1%nat [Demo.ev "ping"]) Demo.start)
             (errors_New ErrQueueStopped [])
             (set_echans (insert 1%nat [Demo.ev "ping"]) Demo.start)
             eq_refl eq_refl eq_refl).
  split; reflexivity.
Defined.

(** Twelve recoverings in twelve seconds are too many, and the
    supervisor that finds them after a panic stops the loop. *)
Lemma checkRecovering_too_often_witness :
  checkRecovering 0%nat (Demo.burst 0 12) Demo.panicked =
    Done ([], Some (errors_New ErrRecoveredTooOften [VString "boom"]))
         (recovering_logged Demo.cell_a
            (mkRecovering (11 * time_Second) (VString "boom")) Demo.panicked) /\
  exists w',
    supervise 0%nat [[CaseEvent]] Demo.before_panic = Done Stopped w' /\
    w_loops w' !! 0%nat =
      Some (mkLoop Stopped (Some (errors_New ErrRecoveredTooOften [VString "boom"]))
              (Demo.burst 0 12)).
Proof.
  assert (Hmany : (12 <= length (within_last time_Minute (Demo.burst 0 12)))%nat)
    by (vm_compute; lia).
  destruct (checkRecovering_too_often 0%nat Demo.cell_a (Demo.burst 0 12)
              Demo.panicked eq_refl Hmany) as (last & Hlast & Hcheck & Hsup).
  assert (Hl : last = mkRecovering (11 * time_Second) (VString "boom")).
  { vm_compute in Hlast. now injection Hlast as <-. }
  subst last. split; [exact Hcheck|].
  exact (Hsup 0%nat (mkLoop Running None (Demo.burst 0 11)) (VString "boom")
           Demo.before_panic [CaseEvent] [] eq_refl eq_refl eq_refl eq_refl).
Defined.

(** After a single panic the behavior is asked to recover, and the
    history comes back as it is. *)
Lemma checkRecovering_recovers_witness :
  checkRecovering 0%nat (Demo.burst 0 1) Demo.start =
    Done (Demo.burst 0 1, None)
         (recovering_logged Demo.cell_a (mkRecovering 0 (VString "boom")) Demo.start).
Proof.
  assert (Hfew : (length (within_last time_Minute (Demo.burst 0 1)) < 12)%nat)
    by (vm_compute; lia).
  exact (proj1 (checkRecovering_recovers 0%nat Demo.cell_a (Demo.burst 0 1)
                  (mkRecovering 0 (VString "boom")) Demo.start
                  eq_refl eq_refl Hfew)).
Defined.

(** The first event of the queue makes [ProcessEvent] fail: the loop is
    killed and its stop signal raised. *)
Lemma backendLoop_dequeued_event_witness :
  backendLoop_select 0%nat CaseEvent Demo.two_events = Done Continue Demo.after_error /\
  ShallStop 0%nat Demo.after_error = Done true Demo.after_error /\
  w_loops Demo.after_error !! 0%nat =
    Some (mkLoop Stopping (Some (ForeignError "cannot process")) []).
Proof.
  pose proof (backendLoop_dequeued_event 0%nat Demo.cell_a 0%nat Demo.running
                0%nat (Demo.ev "fail") [Demo.ev "ok"] Demo.two_events
                Demo.two_events eq_refl eq_refl eq_refl eq_refl eq_refl) as Hev.
  destruct (Hev Demo.cell_a 0%nat Demo.running eq_refl eq_refl eq_refl)
    as (w4 & Hselect & Hkill & _ & Hstop & _ & _).
  assert (Hw4 : w4 = Demo.after_error).
  { unfold Demo.after_error. now rewrite Hselect. }
  subst w4. split; [exact Hselect|]. split; [exact Hstop|]. reflexivity.
Defined.

(** C1, at the failing input.  The queue of "a" holds two events and
    [ProcessEvent] returns an error for the first.  The loop is killed
    with that error, but [continue] takes it back to the [select]
    instead of out of the [for]; there the stop signal and the second
    event can both proceed, and Go chooses among such cases at random.
    When the event case is taken, the second event is handed to
    [ProcessEvent] after the error: the behavior has processed both,
    where the claim has no further event processed. *)
Lemma backendLoop_event_after_error :
  backendLoop_select 0%nat CaseEvent Demo.two_events = Done Continue Demo.after_error /\
  w_loops Demo.after_error !! 0%nat =
    Some (mkLoop Stopping (Some (ForeignError "cannot process")) []) /\
  w_private Demo.after_error !! 0%nat = Some (VList [VString "fail"]) /\
  w_echans Demo.after_error !! 0%nat = Some [Demo.ev "ok"] /\
  backendLoop_select 0%nat CaseEvent Demo.after_error = Done Continue Demo.after_second /\
  w_private Demo.after_second !! 0%nat = Some (VList [VString "fail"; VString "ok"]) /\
  w_echans Demo.after_second !! 0%nat = Some [] /\
  backendLoop_for 0%nat [CaseEvent; CaseEvent; CaseShallStop] Demo.two_events =
    Done (Return None) Demo.after_second.
Proof. repeat split; vm_compute; reflexivity. Qed.

(** C6, at the failing input.  The queue the factory hands over already
    holds the event "early", and [Init] of the behavior fails.
    [newCell] starts the backend loop before it calls [Init]; when the
    goroutine of the loop is scheduled in between and its [select]
    takes the event, [ProcessEvent] is given the event before [Init] is
    called: the behavior has noted "early" and then "init", where the
    claim has [Init] called before any event is delivered.  [newCell]
    returns the [CellInit] error and no cell all the same. *)
Lemma newCell_event_before_Init :
  let started :=
    newCell (H := Demo.collaborators_prefilled) 0%nat "x" 13%nat
      Demo.idle (worker (H := Demo.collaborators_prefilled) [CaseEvent])
      Demo.start in
  queueFactory (Collaborators := Demo.collaborators_prefilled) 0%nat Demo.start =
    Done (inl 4%nat)
      (set_mailboxes (insert 4%nat (mkMailbox 4 8 false))
         (set_echans (insert 4%nat [Demo.ev "early"]) Demo.start)) /\
  started =
    Done (None, Some (errors_Annotate (ForeignError "cannot init") ErrCellInit
                        [VString "x"]))
         (after started) /\
  w_private Demo.start !! 13%nat = None /\
  w_private (after started) !! 13%nat =
    Some (VList [VString "early"; VString "init"]) /\
  w_echans (after started) !! 4%nat = Some [].
Proof.
  cbv zeta. split; [|split; [|split; [|split]]]; vm_compute; reflexivity.
Qed.

(** *** Requests *)


(** With timeout 0 the same request times out: nothing is in the
    response channel when the [select] is entered. *)
Lemma Request_timeout_zero_witness :
  Request 0%nat "a" "square" Demo.seven None 0 CaseResponse [Demo.a_works]
    Demo.start =
    Done (Some (None, Some (errors_New ErrTimeout
            [VString (Sprintf "requesting %q from %q"
                        [VString "square"; VString "a"])]))) Demo.requested.
Proof.
  assert (Hemit : env_EmitNew 0%nat "a" "square"
            (VPayload (Apply (NewPayload Demo.seven)
                         [(ResponseChanPayload, VChan 0%nat)]))
            None (after (make_chan 1 Demo.start)) = Done None Demo.requested)
    by (vm_compute; reflexivity).
  assert (Hch : w_rchans Demo.requested !! 0%nat = Some (mkChan 1 []))
    by (vm_compute; reflexivity).
  exact (proj2 (Request_timeout_zero 0%nat "a" "square" Demo.seven None
                  CaseResponse [Demo.a_works] 0%nat (mkChan 1 []) Demo.start
                  (after (make_chan 1 Demo.start)) Demo.requested
                  eq_refl Hemit Hch) eq_refl).
Defined.

(** A request to a cell that does not exist returns [CellNotFound] at
    once, whatever the timeout, and a request to "c", whose mailbox is
    stopped, [QueueStopped]. *)
Lemma Request_emission_error_witness :
  Request 0%nat "nobody" "square" Demo.seven None time_Minute CaseResponse
    [Demo.a_works] Demo.start =
    Done (Some (None, Some (errors_New ErrCellNotFound [VString "nobody"])))
         (after (make_chan 1 Demo.start)) /\
  Request 0%nat "c" "square" Demo.seven None time_Minute CaseResponse
    [Demo.a_works] Demo.start =
    Done (Some (None, Some (errors_New ErrQueueStopped [])))
         (after (make_chan 1 Demo.start)).
Proof.
  split; [|
    apply (Request_emission_error 0%nat "c" "square" Demo.seven None
             time_Minute CaseResponse [Demo.a_works] 0%nat
             (errors_New ErrQueueStopped []) Demo.start
             (after (make_chan 1 Demo.start)) (after (make_chan 1 Demo.start))
             eq_refl);
    vm_compute; reflexivity].
  assert (Hemit : env_EmitNew 0%nat "nobody" "square"
            (VPayload (Apply (NewPayload Demo.seven)
                         [(ResponseChanPayload, VChan 0%nat)]))
            None (after (make_chan 1 Demo.start)) =
            Done (Some (errors_New ErrCellNotFound [VString "nobody"]))
                 (after (make_chan 1 Demo.start)))
    by (vm_compute; reflexivity).
  exact (Request_emission_error 0%nat "nobody" "square" Demo.seven None
           time_Minute CaseResponse [Demo.a_works] 0%nat
           (errors_New ErrCellNotFound [VString "nobody"]) Demo.start
           (after (make_chan 1 Demo.start)) (after (make_chan 1 Demo.start))
           eq_refl Hemit).
Defined.

(** [Stop] of an environment whose registry reports an error: the error
    is returned, the finalizer is gone, and teardown does nothing. *)
Lemma env_Stop_clears_finalizer_first_witness :
  w_finalizers Demo.failed !! 0%nat = Some FinalizerStop /\
  env_Stop 0%nat Demo.failed =
    Done (Some (errors_New ErrStopped [VError (ForeignError "cannot process")]))
         (set_finalizers (delete 0%nat) Demo.failed) /\
  run_finalizer 0%nat (set_finalizers (delete 0%nat) Demo.failed) =
    Done tt (set_finalizers (delete 0%nat) Demo.failed).
Proof.
  assert (Hreg : registry_stop 0%nat (set_finalizers (delete 0%nat) Demo.failed) =
            Done (Some (errors_New ErrStopped
                          [VError (ForeignError "cannot process")]))
                 (set_finalizers (delete 0%nat) Demo.failed))
    by (vm_compute; reflexivity).
  destruct (env_Stop_clears_finalizer_first 0%nat
              (Some (errors_New ErrStopped [VError (ForeignError "cannot process")]))
              Demo.failed (set_finalizers (delete 0%nat) Demo.failed)
              Hreg eq_refl) as (_ & Hstop & _ & Hteardown).
  split; [reflexivity|]. split; [exact Hstop|exact Hteardown].
Defined.

(** *** Scenarios of the specification *)

(** Fan-out: with all mailboxes open, "b", "c" and "d" each get the
    event "a" emits. *)
Example fan_out :
  Emit 0%nat (Demo.ev "ping") Demo.all_open =
    Done None
      (set_echans (fun chans =>
         <[3%nat := [Demo.ev "ping"]]>
           (<[2%nat := [Demo.ev "ping"]]>
              (<[1%nat := [Demo.ev "ping"]]> chans))) Demo.all_open).
Proof. vm_compute. reflexivity. Qed.

(** Panic ceiling: a behavior that panics on every event is recovered
    eleven times; the twelfth panic within the minute ends the cell
    with [RecoveredTooOften], and eight of the twenty events are left
    in the queue. *)
Example panic_ceiling :
  exists w',
    supervise 0%nat (replicate 20 [CaseEvent]) Demo.all_panic = Done Stopped w' /\
    (l_err <$> w_loops w' !! 0%nat) =
      Some (Some (errors_New ErrRecoveredTooOften [VString "boom"])) /\
    (length <$> w_echans w' !! 0%nat) = Some 8%nat.
Proof. eexists. split; [vm_compute; reflexivity|]. split; vm_compute; reflexivity. Qed.

(** Environment ids: a drawn UUID without parts, the joined parts
    otherwise. *)
Example NewEnvironment_ids :
  (env_id <$> w_envs (after (NewEnvironment [] Demo.start)) !! 1%nat) =
    Some "uuid-0" /\
  (env_id <$> w_envs (after (NewEnvironment [VString "x"; VString "y"] Demo.start))
     !! 1%nat) = Some "x:y".
Proof. split; vm_compute; reflexivity. Qed.

(** *** Runs for the further properties *)

(** Of twenty recoverings ten seconds apart the twelve most recent are
    kept. *)
Lemma checkRecovering_results_witness :
  checkRecovering 0%nat Demo.sparse Demo.start =
    Done (Trim 12 Demo.sparse, None)
         (recovering_logged Demo.cell_a
            (mkRecovering (190 * time_Second) (VString "boom")) Demo.start) /\
  (length (Trim 12 Demo.sparse) <= 12)%nat /\
  Last (Trim 12 Demo.sparse) = Last Demo.sparse.
Proof.
  assert (Hrun : checkRecovering 0%nat Demo.sparse Demo.start =
            Done (Trim 12 Demo.sparse, None)
                 (recovering_logged Demo.cell_a
                    (mkRecovering (190 * time_Second) (VString "boom"))
                    Demo.start))
    by (vm_compute; reflexivity).
  destruct (checkRecovering_results 0%nat Demo.sparse (Trim 12 Demo.sparse) None
              Demo.start _ Hrun) as (_ & Hlen & Hlast & _).
  split; [exact Hrun|]. split; [exact Hlen|exact Hlast].
Defined.

(** The loop of "a", killed by the first event, leaves through the stop
    case. *)
Lemma backendLoop_returns_through_Terminate_witness :
  exists w0 cl l events w1,
    w_cells w0 !! 0%nat = Some cl /\
    c_loop cl = Some l /\
    ShallStop l w0 = Done true w0 /\
    Events (queues (c_queue cl)) w0 = Done events w1 /\
    Terminate (behaviors (c_behavior cl)) w1 = Done None Demo.after_second.
Proof.
  assert (Hrun : backendLoop_for 0%nat [CaseEvent; CaseEvent; CaseShallStop]
                   Demo.two_events = Done (Return None) Demo.after_second)
    by (vm_compute; reflexivity).
  exact (backendLoop_returns_through_Terminate 0%nat
           [CaseEvent; CaseEvent; CaseShallStop] None Demo.two_events
           Demo.after_second Hrun).
Defined.

(** [cleanup] of "a" stops its mailbox and logs the termination. *)
Lemma cleanup_swallows_stop_error_witness :
  cleanup 0%nat Demo.start =
    Done tt
      (set_log (fun lines =>
         (lines ++ []) ++ [mkLog LInfo "cell %q terminated" [VString "a"]])
         (set_mailboxes (insert 0%nat (mkMailbox 0 8 true)) Demo.start)).
Proof.
  assert (Hstop : Stop (queues 0%nat) Demo.start =
            Done None (set_mailboxes (insert 0%nat (mkMailbox 0 8 true)) Demo.start))
    by (vm_compute; reflexivity).
  exact (cleanup_swallows_stop_error 0%nat Demo.cell_a None Demo.start _
           eq_refl Hstop).
Defined.

(** "a" is told to emit to "d" and "b".  While its loop does not get to
    the update the caller is blocked; once the loop has taken it, the
    call has returned and these are the subscribers of "a". *)
Lemma updateSubscribers_takes_effect_witness :
  (exists w', updateSubscribers 0%nat [3; 1]%nat [Demo.time_passes time_Second]
                Demo.start = Done None w') /\
  exists w2,
    updateSubscribers 0%nat [3; 1]%nat
      [backendLoop_select 0%nat CaseSubscribers;; mret tt] Demo.start =
      Done (Some tt) w2 /\
    (c_subscribers <$> w_cells w2 !! 0%nat) = Some [3; 1]%nat /\
    Emit 0%nat (Demo.ev "ping") w2 =
      Emit_range [3; 1]%nat (Demo.ev "ping") w2.
Proof.
  assert (Hev : Events (queues 0%nat)
                  (set_schans (insert 0%nat (mkSchan ([] ++ [[3; 1]%nat]) 0))
                     Demo.start) =
                Done 0%nat
                  (set_schans (insert 0%nat (mkSchan ([] ++ [[3; 1]%nat]) 0))
                     Demo.start))
    by (vm_compute; reflexivity).
  destruct (updateSubscribers_takes_effect 0%nat Demo.cell_a 0%nat Demo.running
              (mkSchan [] 0) [3; 1]%nat 0%nat (Demo.ev "ping") Demo.start
              eq_refl eq_refl eq_refl eq_refl)
    as (Hblocked & _ & Htaken).
  split.
  - destruct (Hblocked [Demo.time_passes time_Second]) as (w' & Hrun & _).
    { constructor; [|constructor]. intros w0. reflexivity. }
    now exists w'.
  - destruct (Htaken eq_refl ltac:(discriminate) Hev [])
      as (w2 & _ & Hupd & Hcell & _ & Hemit).
    exists w2. split; [exact Hupd|].
    split; [now rewrite Hcell|exact Hemit].
Defined.

(** A cell around the broken behavior is not started: [newCell] returns
    the error of its [Init], annotated.  A cell "y" around the
    recording behavior 5 is. *)
Lemma newCell_results_witness :
  (exists cause,
     errors_Annotate (ForeignError "cannot init") ErrCellInit [VString "x"] =
       errors_Annotate cause ErrCellInit [VString "x"] /\
     (queueFactory 0%nat Demo.start =
        Done (inr cause) (after (newCell 0%nat "x" 13%nat Demo.idle Demo.idle
                                   Demo.start)) \/
      exists queue w1 c w2,
        queueFactory 0%nat Demo.start = Done (inl queue) w1 /\
        w_cells w1 !! c = None /\
        Init (behaviors 13%nat) c w2 =
          Done (Some cause) (after (newCell 0%nat "x" 13%nat Demo.idle Demo.idle
                                      Demo.start)))) /\
  exists queue w1 w2 w3,
    queueFactory 0%nat Demo.start = Done (inl queue) w1 /\
    w_cells w1 !! 4%nat = None /\
    Init (behaviors 5%nat) 4%nat w2 = Done None w3 /\
    mkLog LInfo "cell %q started" [VString "y"] ∈
      w_log (after (newCell 0%nat "y" 5%nat Demo.idle Demo.idle Demo.start)).
Proof.
  assert (Hfail : newCell 0%nat "x" 13%nat Demo.idle Demo.idle Demo.start =
            Done (None, Some (errors_Annotate (ForeignError "cannot init")
                                ErrCellInit [VString "x"]))
                 (after (newCell 0%nat "x" 13%nat Demo.idle Demo.idle Demo.start)))
    by (vm_compute; reflexivity).
  assert (Hrun : newCell 0%nat "y" 5%nat Demo.idle Demo.idle Demo.start =
            Done (Some 4%nat, None)
                 (after (newCell 0%nat "y" 5%nat Demo.idle Demo.idle Demo.start)))
    by (vm_compute; reflexivity).
  split.
  - exact (newCell_results 0%nat "x" 13%nat Demo.idle Demo.idle None _
             Demo.start _ Hfail).
  - exact (newCell_results 0%nat "y" 5%nat Demo.idle Demo.idle (Some 4%nat) None
             Demo.start _ Hrun).
Defined.

(** The worker of "a" runs before the loop of "a" is assigned: it
    panics, and the mailbox of "a" is stopped. *)
Lemma backendLoop_before_loop_assigned_witness :
  exists w',
    backendLoop 0%nat [CaseEvent] Demo.unassigned = Panicked nil_dereference w' /\
    (mb_stopped <$> w_mailboxes w' !! 0%nat) = Some true.
Proof.
  assert (Hstop : Stop (queues 0%nat)
            (set_vars (fun vs => <["cells:env:total-cells" :=
                                     default 0 (vs !! "cells:env:total-cells") + 1]> vs)
               (set_vars (fun vs => <["cells:env:cell:behavior" :=
                                        default 0 (vs !! "cells:env:cell:behavior") + 1]> vs)
                  Demo.unassigned)) =
            Done None (after (Stop (queues 0%nat)
              (set_vars (fun vs => <["cells:env:total-cells" :=
                                       default 0 (vs !! "cells:env:total-cells") + 1]> vs)
                 (set_vars (fun vs => <["cells:env:cell:behavior" :=
                                          default 0 (vs !! "cells:env:cell:behavior") + 1]> vs)
                    Demo.unassigned)))))
    by (vm_compute; reflexivity).
  eexists. split.
  - exact (backendLoop_before_loop_assigned 0%nat
             (mkCell 0 "a" 0 [1; 2; 3]%nat 0 0 None "cells:env:cell:behavior")
             Demo.env_0 CaseEvent [] None Demo.unassigned _
             eq_refl eq_refl eq_refl Hstop).
  - vm_compute. reflexivity.
Defined.

(** The same at the start of a cell: when the goroutine of the loop is
    scheduled before [newCell] has assigned the loop, the cell that
    [newCell] returns has a stopped queue and takes no event. *)
Example newCell_stopped_queue :
  let made := newCell 0%nat "y" 5%nat (worker [CaseEvent]) Demo.idle Demo.start in
  made = Done (Some 4%nat, None) (after made) /\
  (mb_stopped <$> w_mailboxes (after made) !! 4%nat) = Some true /\
  processEvent 4%nat (Demo.ev "ping") (after made) =
    Done (Some (errors_New ErrQueueStopped [])) (after made).
Proof.
  cbv zeta. split; [|split]; vm_compute; reflexivity.
Qed.

(** Environment 0 has the cell "a" and no cell "nobody". *)
Lemma HasCell_Emit_witness :
  HasCell 0%nat "a" Demo.start = Done true Demo.start /\
  HasCell 0%nat "nobody" Demo.start = Done false Demo.start /\
  env_Emit 0%nat "nobody" (Demo.ev "ping") Demo.start =
    Done (Some (errors_New ErrCellNotFound [VString "nobody"])) Demo.start.
Proof.
  pose proof (HasCell_Emit 0%nat Demo.env_0 "a" (Demo.ev "ping") Demo.start
                eq_refl) as Ha.
  pose proof (HasCell_Emit 0%nat Demo.env_0 "nobody" (Demo.ev "ping") Demo.start
                eq_refl) as Hn.
  change (r_cells (env_cells Demo.env_0) !! "a") with (Some 0%nat) in Ha.
  change (r_cells (env_cells Demo.env_0) !! "nobody") with (@None loc) in Hn.
  destruct Ha as [Ha _]. destruct Hn as [Hn1 Hn2].
  split; [exact Ha|]. split; [exact Hn1|exact Hn2].
Defined.

(** Environment 0 gets a custom monitoring and keeps its id. *)
Lemma SetMonitoring_monitoring_witness :
  exists w',
    SetMonitoring 0%nat (CustomMonitoring 7) Demo.start = Done tt w' /\
    monitoring 0%nat w' = Done (CustomMonitoring 7) w' /\
    env_ID 0%nat w' = Done "env" w'.
Proof.
  destruct (SetMonitoring_monitoring 0%nat Demo.env_0 (CustomMonitoring 7)
              Demo.start eq_refl) as (w' & Hset & Hget & Hid & _).
  exists w'. split; [exact Hset|]. split; [exact Hget|exact Hid].
Defined.

(** A second environment beside environment 0. *)
Lemma NewEnvironment_keeps_others_witness :
  exists e w',
    NewEnvironment [] Demo.start = Done e w' /\
    e <> 0%nat /\
    w_envs w' !! 0%nat = Some Demo.env_0.
Proof.
  destruct (NewEnvironment_keeps_others [] 0%nat Demo.env_0 Demo.start eq_refl)
    as (e & w' & Hnew & Hne & Hkept & _).
  exists e, w'. split; [exact Hnew|]. split; [exact Hne|exact Hkept].
Defined.

(** Through the direct queue the answer is there before the [select];
    the request returns it even with timeout 0 when Go chooses the
    response case. *)
Lemma Request_response_ready_witness :
  Request (H := Demo.collaborators_direct) 0%nat "a" "square" Demo.seven None
    0 CaseResponse [] Demo.start =
    Done (Some (Some (VInt 49), None))
         (set_rchans (insert 0%nat (mkChan 1 [])) Demo.answered).
Proof.
  assert (Hemit : env_EmitNew (H := Demo.collaborators_direct) 0%nat "a" "square"
            (VPayload (Apply (NewPayload Demo.seven)
                         [(ResponseChanPayload, VChan 0%nat)]))
            None (after (make_chan 1 Demo.start)) = Done None Demo.answered)
    by (vm_compute; reflexivity).
  assert (Hch : w_rchans Demo.answered !! 0%nat = Some (mkChan 1 [VInt 49]))
    by (vm_compute; reflexivity).
  exact (proj1 (proj2 (Request_response_ready (H := Demo.collaborators_direct)
                  0%nat "a" "square" Demo.seven None 0 CaseResponse [] 0%nat
                  (mkChan 1 [VInt 49]) (VInt 49) [] Demo.start
                  (after (make_chan 1 Demo.start)) Demo.answered
                  eq_refl Hemit Hch eq_refl)) eq_refl).
Defined.

(** The mailbox and the behaviors of the concrete runtime leave the
    monitoring variables alone. *)
Lemma Demo_keeps_vars :
  (forall q, keeps_vars (Events (queues q))) /\
  (forall q, keeps_vars (Stop (queues q))) /\
  (forall b event, keeps_vars (ProcessEvent (behaviors b) event)) /\
  (forall b, keeps_vars (Terminate (behaviors b))).
Proof.
  repeat split; intros; cbn [queues behaviors Demo.collaborators Events Stop
    Demo.mailbox]; unfold Demo.mailbox_Events, Demo.mailbox_Stop,
    Demo.demo_behaviors.
  - keeps.
  - keeps.
  - destruct (b =? 13)%nat; cbn [ProcessEvent Demo.broken Demo.recorder];
      unfold Demo.recorder_ProcessEvent, Demo.remember, chan_offer; keeps.
  - destruct (b =? 13)%nat; cbn [Terminate Demo.broken Demo.recorder]; keeps.
Qed.

(** While the loop of "a" runs, the counter of all cells is one up; when
    it has returned, it is back. *)
Lemma backendLoop_counters_balance_witness :
  counter "cells:env:total-cells"
    (after (backendLoop 0%nat [CaseEvent] Demo.two_events)) =
    counter "cells:env:total-cells" Demo.two_events + 1 /\
  counter "cells:env:total-cells"
    (after (backendLoop 0%nat [CaseEvent; CaseEvent; CaseShallStop]
              Demo.two_events)) =
    counter "cells:env:total-cells" Demo.two_events.
Proof.
  destruct Demo_keeps_vars as (Hev & Hst & Hpe & Hte).
  pose proof (backendLoop_counters_balance 0%nat Demo.cell_a Demo.env_0
                [CaseEvent] "cells:env:total-cells" Demo.two_events
                Hev Hst Hpe Hte eq_refl eq_refl) as Hrunning.
  pose proof (backendLoop_counters_balance 0%nat Demo.cell_a Demo.env_0
                [CaseEvent; CaseEvent; CaseShallStop] "cells:env:total-cells"
                Demo.two_events Hev Hst Hpe Hte eq_refl eq_refl) as Hleft.
  assert (Hrun1 : backendLoop 0%nat [CaseEvent] Demo.two_events =
            Done Waiting (after (backendLoop 0%nat [CaseEvent] Demo.two_events)))
    by (vm_compute; reflexivity).
  assert (Hrun3 : backendLoop 0%nat [CaseEvent; CaseEvent; CaseShallStop]
                    Demo.two_events =
            Done (Return None)
              (after (backendLoop 0%nat [CaseEvent; CaseEvent; CaseShallStop]
                        Demo.two_events)))
    by (vm_compute; reflexivity).
  rewrite Hrun1 in Hrunning. rewrite Hrun3 in Hleft.
  split; [|exact Hleft].
  rewrite Hrunning. vm_compute. reflexivity.
Defined.
